(** * MMN: multi Miyamoto-Nagai disc models and their fitter

    A shallow embedding of the two model variants of the repository,
    [mnn/model.py] (class [MNnModel]) and [MultiMiyamotoNagai/model.py]
    (class [MMNModel]), and of the likelihood and sampling driver
    [MultiMiyamotoNagai/fitter.py] (class [MMNFitter]).

    Python floats are idealised as the real numbers of the Standard
    Library; Python lists are lists, Python strings are strings, and an
    exception is a [Raise] result.  Collaborators that the code only calls
    (scipy's [fminbound], emcee's sampler, numpy's random generator) are
    section variables. *)

From Stdlib Require Import Reals Lra Lia.
From stdpp Require Import base option list strings gmap.

Open Scope R_scope.

(** ** Python results: a value or a raised exception *)

Inductive exn : Type :=
| ValueError
| IndexError
| TypeError
| AttributeError
| MNnError.

Inductive result (A : Type) : Type :=
| Ok (a : A)
| Raise (e : exn).
Arguments Ok {A} a.
Arguments Raise {A} e.

#[global] Instance result_ret : MRet result := fun A a => Ok a.
#[global] Instance result_bind : MBind result := fun A B k c =>
  match c with
  | Ok a => k a
  | Raise e => Raise e
  end.

(** ** Float comparisons and powers, on reals *)

Definition Rltb (x y : R) : bool := if Rlt_dec x y then true else false.
Definition Rgtb (x y : R) : bool := Rltb y x.

(** [x ** 1.5] and [x ** 2.5]; the code only applies them to a sum of
    squares, where they are [x * sqrt x] and [x^2 * sqrt x]. *)
Definition pow15 (x : R) : R := x * sqrt x.
Definition pow25 (x : R) : R := x ^ 2 * sqrt x.

(** [l[i:j]]: a slice never raises, it is cut at the end of the list. *)
Definition slice {A : Type} (l : list A) (i j : nat) : list A :=
  take (j - i) (drop i l).

(** [a, b, M = l]: unpacking raises ValueError unless [l] has three items. *)
Definition unpack3 {A : Type} (l : list A) : result (A * A * A) :=
  match l with
  | [a; b; M] => Ok (a, b, M)
  | _ => Raise ValueError
  end.

(** [l[0]] *)
Definition head_item {A : Type} (l : list A) : result A :=
  match l with
  | a :: _ => Ok a
  | [] => Raise IndexError
  end.

(** The module-level gravitational constant [G = 0.0043008211]. *)
Definition G : R := 43008211 / 10000000000.


(** A three-component numpy array, added and scaled component-wise. *)
Definition vec3 : Type := R * R * R.
Definition vadd (u v : vec3) : vec3 :=
  let '(u1, u2, u3) := u in
  let '(v1, v2, v3) := v in
  (u1 + v1, u2 + v2, u3 + v3).
Definition vscale (q : R) (v : vec3) : vec3 :=
  let '(v1, v2, v3) := v in (q * v1, q * v2, q * v3).

(** The axis-local radius and height a disc is evaluated at: the chain
    [if axis == "x": cb(ryz, x, ...) elif axis == "y": cb(rxz, y, ...)
    else: cb(rxy, z, ...)] that both models and the fitter repeat. *)
Definition on_axis {A : Type} (cb : R -> R -> R -> R -> R -> A)
    (x y z : R) (axis : string) (a b M : R) : A :=
  let rxy := sqrt (x ^ 2 + y ^ 2) in
  let rxz := sqrt (x ^ 2 + z ^ 2) in
  let ryz := sqrt (y ^ 2 + z ^ 2) in
  if String.eqb axis "x" then cb ryz x a b M
  else if String.eqb axis "y" then cb rxz y a b M
  else cb rxy z a b M.

(** What a method leaves behind: its result, the object after the call
    and the lines it printed. *)
Inductive output : Type :=
| WarnNegativeSum (a b : R).

Record run (S A : Type) : Type := Run {
  ret : result A;
  after : S;
  printed : list output
}.
Arguments Run {S A} ret after printed.
Arguments ret {S A} r.
Arguments after {S A} r.
Arguments printed {S A} r.

(** ** mnn/model.py: class MNnModel *)

Module MNn.

Record model : Type := Model {
  discs : list R;
  axes : list string;
  diz : R
}.

(** [__init__] *)
Definition init (diz : R) : model := Model [] [] diz.

(** [add_disc]: the check on [b] raises before anything is stored; the
    check on [a+b] only prints. *)
Definition add_disc (axis : string) (a b M : R) (self : model)
    : run model unit :=
  if Rltb b 0 then Run (Raise MNnError) self []
  else
    let warn := if Rltb (a + b) 0 then [WarnNegativeSum a b] else [] in
    Run (Ok tt)
        (Model (discs self ++ [a; b; M]) (axes self ++ [axis]) (diz self))
        warn.

(** [add_discs]: the loop stops at the first disc that raises. *)
Fixpoint add_discs (values : list (string * R * R * R)) (self : model)
    : run model unit :=
  match values with
  | [] => Run (Ok tt) self []
  | (axis, a, b, M) :: values' =>
    let r := add_disc axis a b M self in
    match ret r with
    | Ok _ =>
      let r' := add_discs values' (after r) in
      Run (ret r') (after r') (printed r ++ printed r')
    | Raise e => Run (Raise e) (after r) (printed r)
    end
  end.

(** [load_from_array]: [zip] stops at the shorter of the two sequences. *)
Fixpoint load_from_array (rows : list (list R)) (axs : list string)
    (self : model) : run model unit :=
  match rows, axs with
  | m :: rows', ax :: axs' =>
    match unpack3 m with
    | Ok (a, b, M) =>
      let r := add_disc ax a b M self in
      match ret r with
      | Ok _ =>
        let r' := load_from_array rows' axs' (after r) in
        Run (ret r') (after r') (printed r ++ printed r')
      | Raise e => Run (Raise e) (after r) (printed r)
      end
    | Raise e => Run (Raise e) self []
    end
  | _, _ => Run (Ok tt) self []
  end.

(** [get_model]: one tuple [(axis,) + discs[3i:3i+3]] per stored axis; the
    pair keeps the axis and the slice, whatever its length. *)
Definition get_model (self : model) : list (string * list R) :=
  imap (fun id_axis axis =>
          (axis, slice (discs self) (id_axis * 3) ((id_axis + 1) * 3)))
       (axes self).

(** [get_tangent_coordinates] *)
Definition get_tangent_coordinates (x y z : R) (axis : string) : R * R * R :=
  if String.eqb axis "x" then (y, z, x)
  else if String.eqb axis "y" then (x, z, y)
  else (x, y, z).

(** [mn_density] *)
Definition mn_density (r z a b M : R) : R :=
  let h := sqrt (z ^ 2 + b ^ 2) in
  let fac := b ^ 2 * M / (4 * PI) in
  let ah2 := (a + h) ^ 2 in
  let ar2 := a * r ^ 2 in
  let a3h := a + 3 * h in
  let num := ar2 + a3h * ah2 in
  let den := h ^ 3 * pow25 (r ^ 2 + ah2) in
  fac * num / den.

(** [mn_potential] *)
Definition mn_potential (r z a b M : R) : R :=
  let M1 := M in
  let h := sqrt (z ^ 2 + b ^ 2) in
  let den := r ^ 2 + (a + h) ^ 2 in
  - G * M1 / sqrt den.

(** [mn_force], at a single point *)
Definition mn_force (t1 t2 n a b M : R) (axis : string) : vec3 :=
  let num := - G * M in
  let R2 := t1 ^ 2 + t2 ^ 2 in
  let f1 := sqrt (b ^ 2 + n ^ 2) in
  let f2 := (a + f1) ^ 2 in
  let den := pow15 (R2 + f2) in
  let q1 := num / den in
  let f3 := sqrt (n ^ 2 + b ^ 2) in
  let q2 := (a + f3) / f3 in
  if String.eqb axis "x" then vscale q1 (n * q2, t1, t2)
  else if String.eqb axis "y" then vscale q1 (t1, n * q2, t2)
  else vscale q1 (t1, t2, n * q2).

(** The loop of [_evaluate_scalar_quantity] over [self.axes[1:]], with
    [id_mod] counted from 1. *)
Fixpoint scalar_loop (cb : R -> R -> R -> R -> R -> R) (x y z : R)
    (self : model) (rest : list string) (id_mod : nat) (total_sum : R)
    : result R :=
  match rest with
  | [] => Ok total_sum
  | axis :: rest' =>
    '(a, b, M) ← unpack3 (slice (discs self) (id_mod * 3) ((id_mod + 1) * 3));
    scalar_loop cb x y z self rest' (id_mod + 1)
                (total_sum + on_axis cb x y z axis a b M)
  end.

(** [_evaluate_scalar_quantity] *)
Definition _evaluate_scalar_quantity (self : model) (x y z : R)
    (quantity_callback : R -> R -> R -> R -> R -> R) : result R :=
  '(a, b, M) ← unpack3 (slice (discs self) 0 3);
  axis ← head_item (axes self);
  let total_sum := on_axis quantity_callback x y z axis a b M in
  scalar_loop quantity_callback x y z self (drop 1 (axes self)) 1 total_sum.

Definition evaluate_potential (self : model) (x y z : R) : result R :=
  _evaluate_scalar_quantity self x y z mn_potential.

Definition evaluate_density (self : model) (x y z : R) : result R :=
  _evaluate_scalar_quantity self x y z mn_density.

(** One disc's force in Cartesian order. *)
Definition disc_force (x y z : R) (axis : string) (a b M : R) : vec3 :=
  let '(t1, t2, n) := get_tangent_coordinates x y z axis in
  mn_force t1 t2 n a b M axis.

Fixpoint force_loop (x y z : R) (self : model) (rest : list string)
    (id_mod : nat) (total_sum : vec3) : result vec3 :=
  match rest with
  | [] => Ok total_sum
  | axis :: rest' =>
    '(a, b, M) ← unpack3 (slice (discs self) (id_mod * 3) ((id_mod + 1) * 3));
    force_loop x y z self rest' (id_mod + 1)
               (vadd total_sum (disc_force x y z axis a b M))
  end.

(** [evaluate_force] *)
Definition evaluate_force (self : model) (x y z : R) : result vec3 :=
  '(a, b, M) ← unpack3 (slice (discs self) 0 3);
  axis ← head_item (axes self);
  let total_sum := disc_force x y z axis a b M in
  force_loop x y z self (drop 1 (axes self)) 1 total_sum.

(** [_evaluate_density_axis] *)
Definition _evaluate_density_axis (self : model) (r : R) (axis : string)
    : result R :=
  if String.eqb axis "x" then _evaluate_scalar_quantity self r 0 0 mn_density
  else if String.eqb axis "y" then
    _evaluate_scalar_quantity self 0 r 0 mn_density
  else _evaluate_scalar_quantity self 0 0 r mn_density.

Section PositiveDefinite.

(** scipy's [fminbound(func, x1, x2, full_output=True)]: the function, the
    lower bound and the upper bound as Python passes it, a float or
    [None]; the answer is [(xopt, fval, ierr, numfunc)]. *)
Variable fminbound :
  (R -> result R) -> R -> option R -> result (R * R * Z * nat).

(** The inner loop over [mods]: the largest [m[1]] among the discs whose
    axis differs from [axis]. *)
Fixpoint largest_scale (axis : string) (mods : list (string * list R))
    (mr : R) : result R :=
  match mods with
  | [] => Ok mr
  | m :: mods' =>
    if negb (String.eqb m.1 axis) then
      m1 ← head_item m.2;
      largest_scale axis mods' (if Rgtb m1 mr then m1 else mr)
    else largest_scale axis mods' mr
  end.

(** The loop of [is_positive_definite] over ['x', 'y', 'z']: [continue] is
    the recursive call, [return False] ends it. *)
Fixpoint axis_loop (self : model) (max_range : option R)
    (mods : list (string * list R)) (todo : list string) : result bool :=
  match todo with
  | [] => Ok true
  | axis :: todo' =>
    let minimise (mr : R) : result bool :=
      '(xopt, fval, ierr, nf) ←
        fminbound (fun r => _evaluate_density_axis self r axis) 0 max_range;
      if Rltb fval 0 then Ok false
      else axis_loop self max_range mods todo' in
    match max_range with
    | None =>
      mr ← largest_scale axis mods 0;
      if Rltb (Rabs mr) (/ 10 ^ 18) then axis_loop self max_range mods todo'
      else minimise (mr * 10)
    | Some given => minimise given
    end
  end.

(** [is_positive_definite] *)
Definition is_positive_definite (self : model) (max_range : option R)
    : result bool :=
  let mods := get_model self in
  axis_loop self max_range mods ["x"; "y"; "z"]%string.

End PositiveDefinite.

End MNn.

(** ** MultiMiyamotoNagai/model.py: class MMNModel *)

Module MMN.

Record model : Type := Model {
  models : list R;
  axes : list string;
  diz : R
}.

(** [__init__] *)
Definition init (diz : R) : model := Model [] [] diz.

(** [add_model]: no check at all, the disc is always stored. *)
Definition add_model (axis : string) (a b M : R) (self : model)
    : run model unit :=
  Run (Ok tt)
      (Model (models self ++ [a; b; M]) (axes self ++ [axis]) (diz self))
      [].

(** [add_models] *)
Fixpoint add_models (values : list (string * R * R * R)) (self : model)
    : run model unit :=
  match values with
  | [] => Run (Ok tt) self []
  | (axis, a, b, M) :: values' =>
    let r := add_model axis a b M self in
    match ret r with
    | Ok _ =>
      let r' := add_models values' (after r) in
      Run (ret r') (after r') (printed r ++ printed r')
    | Raise e => Run (Raise e) (after r) (printed r)
    end
  end.

(** [get_models]: one list [[axis] + models[3i:3i+3]] per stored axis. *)
Definition get_models (self : model) : list (string * list R) :=
  imap (fun id_axis axis =>
          (axis, slice (models self) (id_axis * 3) ((id_axis + 1) * 3)))
       (axes self).

(** [mn_density] *)
Definition mn_density (r z a b Mo : R) : R :=
  let M := sqrt (Mo ^ 2) in
  let h := sqrt (z ^ 2 + b ^ 2) in
  let ah2 := (a + h) ^ 2 in
  let ar2 := a * r ^ 2 in
  let a3h := a + 3 * h in
  let num := ar2 + a3h * ah2 in
  let den := h ^ 3 * pow25 (r ^ 2 + ah2) in
  let fac := b ^ 2 * M / (4 * PI) in
  fac * num / den.

(** [mn_potential] *)
Definition mn_potential (r z a b Mo : R) : R :=
  let G := 43008211 / 10000000000 in
  let M := sqrt (Mo ^ 2) in
  let h := sqrt (z ^ 2 + b ^ 2) in
  let den := r ^ 2 + (a + h) ^ 2 in
  - G * M / sqrt den.

(** [mn_forceR] *)
Definition mn_forceR (r z ao bo Mo : R) : R :=
  let G := 43008211 / 10000000000 in
  let kpc := 1000 in
  let M := sqrt (Mo ^ 2) in
  let rp := r * kpc in
  let zp := z * kpc in
  let a := ao * kpc in
  let b := bo * kpc in
  let h := sqrt (zp ^ 2 + b ^ 2) in
  let den := pow15 (rp ^ 2 + (a + h) ^ 2) in
  - G * M * rp / den.

(** [mn_forceV] *)
Definition mn_forceV (r z ao bo Mo : R) : R :=
  let G := 43008211 / 10000000000 in
  let kpc := 1000 in
  let M := sqrt (Mo ^ 2) in
  let rp := r * kpc in
  let zp := z * kpc in
  let a := ao * kpc in
  let b := bo * kpc in
  let h := sqrt (zp ^ 2 + b ^ 2) in
  let den := pow15 (rp ^ 2 + (a + h) ^ 2) in
  let num := G * M * zp in
  let fac := (a + h) / h in
  - fac * num / den.

(** [mn_circular_velocity] *)
Definition mn_circular_velocity (r z ao bo Mo : R) : R :=
  let G := 43008211 / 10000000000 in
  let kpc := 1000 in
  let M := sqrt (Mo ^ 2) in
  let rp := r * kpc in
  let zp := z * kpc in
  let a := ao * kpc in
  let b := bo * kpc in
  let h := sqrt (zp ^ 2 + b ^ 2) in
  let den := pow15 (rp ^ 2 + (a + h) ^ 2) in
  r * sqrt (G * M / den).

(** [self.axes[id_mod]] *)
Definition item {A : Type} (l : list A) (i : nat) : result A :=
  match l !! i with
  | Some a => Ok a
  | None => Raise IndexError
  end.

(** The loop of [_evaluate_quantity]: [enumerate(self.axes[1:])] counts
    [id_mod] from 0, and the loop variable [axis] is overwritten by
    [self.axes[id_mod]] before it is used. *)
Fixpoint quantity_loop (cb : R -> R -> R -> R -> R -> R) (x y z : R)
    (self : model) (rest : list string) (id_mod : nat) (total_sum : R)
    : result R :=
  match rest with
  | [] => Ok total_sum
  | _ :: rest' =>
    '(a, b, M) ← unpack3 (slice (models self) (id_mod * 3) ((id_mod + 1) * 3));
    axis ← item (axes self) id_mod;
    quantity_loop cb x y z self rest' (id_mod + 1)
                  (total_sum + on_axis cb x y z axis a b M)
  end.

(** [_evaluate_quantity] *)
Definition _evaluate_quantity (self : model) (x y z : R)
    (quantity_callback : R -> R -> R -> R -> R -> R) : result R :=
  '(a, b, M) ← unpack3 (slice (models self) 0 3);
  axis ← head_item (axes self);
  let total_sum := on_axis quantity_callback x y z axis a b M in
  quantity_loop quantity_callback x y z self (drop 1 (axes self)) 0 total_sum.

Definition evaluate_potential (self : model) (x y z : R) : result R :=
  _evaluate_quantity self x y z mn_potential.

Definition evaluate_density (self : model) (x y z : R) : result R :=
  _evaluate_quantity self x y z mn_density.

Definition evaluate_forceR (self : model) (x y z : R) : result R :=
  _evaluate_quantity self x y z mn_forceR.

Definition evaluate_forceV (self : model) (x y z : R) : result R :=
  _evaluate_quantity self x y z mn_forceV.

Definition evaluate_circular_velocity (self : model) (x y z : R) : result R :=
  _evaluate_quantity self x y z mn_circular_velocity.

(** [self.evaluate_density(r)]: the method takes [x, y, z]; called with one
    position only, as [is_positive_definite] and the minimiser it hands the
    method to do, Python raises TypeError for the missing arguments. *)
Definition evaluate_density_1 (self : model) (r : R) : result R :=
  Raise TypeError.

Section PositiveDefinite.

(** scipy's [fminbound(func, x1, x2)], which returns the minimiser. *)
Variable fminbound : (R -> result R) -> R -> R -> result R.

(** [is_positive_definite] *)
Definition is_positive_definite (self : model) : result bool :=
  rm ← fminbound (evaluate_density_1 self) 0 1000;
  pm ← evaluate_density_1 self rm;
  Ok (Rgtb pm 0).

End PositiveDefinite.

End MMN.

(** ** MultiMiyamotoNagai/fitter.py: class MMNFitter *)

Module Fitter.

(** A log-likelihood: a float or [-np.inf]. *)
Inductive loglike : Type :=
| NegInf
| Finite (v : R).

(** The fields of the fitter the likelihood and the sampler read.  [data]
    is the N x 4 array of rows [(x, y, z, potential)], [yerr] the noise of
    each row. *)
Record fitter : Type := Fit {
  n_walkers : nat;
  n_steps : nat;
  samples : list (list R);
  models : list R;
  axes : list string;
  ndim : nat;
  fit_type : string;
  data : list (R * R * R * R);
  yerr : list R;
  check_DP : bool
}.

(** The callbacks [sMN] can pick. *)
Inductive eval_func : Type :=
| EvalDensity
| EvalPotential.

Definition callback (f : eval_func) : R -> R -> R -> R -> R -> R :=
  match f with
  | EvalDensity => MMN.mn_density
  | EvalPotential => MMN.mn_potential
  end.

(** The choice of [eval_func] in [sMN]: [MMNModel] has no attribute
    [mn_force], so the last branch raises. *)
Definition pick_eval_func (fit_type : string) : result eval_func :=
  if String.eqb fit_type "density" then Ok EvalDensity
  else if String.eqb fit_type "potential" then Ok EvalPotential
  else Raise AttributeError.

(** [eval_func(r, h, a, b, M)] on the arrays of positions: one value per
    row of [data]. *)
Definition eval_on_data (f : eval_func) (rows : list (R * R * R * R))
    (axis : string) (a b M : R) : list R :=
  (fun row => let '(x, y, z, _) := row in on_axis (callback f) x y z axis a b M)
    <$> rows.

(** The loop of [sMN] over [enumerate(self.axes)]; [total_sum] starts as
    the scalar 0.0, held here as the array numpy broadcasts it to. *)
Fixpoint sMN_loop (f : eval_func) (rows : list (R * R * R * R))
    (models : list R) (rest : list string) (id_mod : nat)
    (total_sum : list R) : result (list R) :=
  match rest with
  | [] => Ok total_sum
  | axis :: rest' =>
    '(a, b, M) ← unpack3 (slice models (id_mod * 3) ((id_mod + 1) * 3));
    let value := eval_on_data f rows axis a b M in
    sMN_loop f rows models rest' (id_mod + 1) (zip_with Rplus total_sum value)
  end.

(** [sMN(models, fit_type)]; [fit_type] is [None] when the caller leaves
    it out. *)
Definition sMN (self : fitter) (models : list R) (fit_type : option string)
    : result (list R) :=
  let models := if Nat.eqb (length models) 0 then Fitter.models self
                else models in
  let fit_type := match fit_type with
                  | None => Fitter.fit_type self
                  | Some s => if String.eqb s "" then Fitter.fit_type self
                              else s
                  end in
  f ← pick_eval_func fit_type;
  sMN_loop f (data self) models (axes self) 0
           ((fun _ => 0) <$> data self).

(** What the local variable [M] of [loglikelihood] holds: the model built
    by [M = MMNModel()], or a float once [a, b, M = ...] has run. *)
Inductive local_M : Type :=
| MObject (m : MMN.model)
| MFloat (v : R).

(** [M.add_model(axis, a, b, M)] *)
Definition call_add_model (target : local_M) (axis : string) (a b M : R)
    : result local_M :=
  match target with
  | MObject m => Ok (MObject (after (MMN.add_model axis a b M m)))
  | MFloat _ => Raise AttributeError
  end.

Section Likelihood.

Variable fminbound : (R -> result R) -> R -> R -> result R.

(** [M.is_positive_definite()] *)
Definition call_is_positive_definite (target : local_M) : result bool :=
  match target with
  | MObject m => MMN.is_positive_definite fminbound m
  | MFloat _ => Raise AttributeError
  end.

(** The first loop of [loglikelihood]: [inl] is [return -np.inf], [inr]
    the value of [M] when the loop ends. *)
Fixpoint check_loop (self : fitter) (models : list R) (rest : list string)
    (id_mod : nat) (M_var : local_M) : result (loglike + local_M) :=
  match rest with
  | [] => Ok (inr M_var)
  | axis :: rest' =>
    '(a, b, M) ← unpack3 (slice models (id_mod * 3) ((id_mod + 1) * 3));
    let M_var := MFloat M in
    if Rltb (a + b) 0 then Ok (inl NegInf)
    else if check_DP self then
      M_var' ← call_add_model M_var axis a b M;
      check_loop self models rest' (id_mod + 1) M_var'
    else check_loop self models rest' (id_mod + 1) M_var
  end.

(** The last four lines of [loglikelihood]. *)
Definition gaussian (self : fitter) (models : list R) : result loglike :=
  let p := (fun row : R * R * R * R => row.2) <$> data self in
  model ← sMN self models None;
  let inv_sigma2 := (fun e => 1 / e ^ 2) <$> yerr self in
  let terms :=
    zip_with Rminus
      (zip_with Rmult ((fun d => d ^ 2) <$> zip_with Rminus p model) inv_sigma2)
      (ln <$> inv_sigma2) in
  Ok (Finite (- (1 / 2) * foldr Rplus 0 terms)).

(** [loglikelihood] *)
Definition loglikelihood (self : fitter) (models : list R) : result loglike :=
  let M_var := MObject (MMN.init 1) in
  checked ← check_loop self models (axes self) 0 M_var;
  match checked with
  | inl early => Ok early
  | inr M_var =>
    if check_DP self then
      pd ← call_is_positive_definite M_var;
      if negb pd then Ok NegInf else gaussian self models
    else gaussian self models
  end.

End Likelihood.

(** The likelihood as the specification writes it: the prediction at a
    point is the sum, over the discs, of the chosen quantity at the disc's
    own radius and height, and the log-likelihood is
    [-0.5 * sum ((observed - predicted)^2 / sigma^2 + log (sigma^2))]. *)
Fixpoint predicted (f : eval_func) (axs : list string) (models : list R)
    (x y z : R) : R :=
  match axs, models with
  | axis :: axs', a :: b :: M :: models' =>
    on_axis (callback f) x y z axis a b M + predicted f axs' models' x y z
  | _, _ => 0
  end.

Definition gaussian_spec (f : eval_func) (axs : list string)
    (models : list R) (data : list (R * R * R * R)) (yerr : list R) : R :=
  - (1 / 2) *
  foldr Rplus 0
    (zip_with
       (fun (row : R * R * R * R) (sigma : R) =>
          let '(x, y, z, p) := row in
          (p - predicted f axs models x y z) ^ 2 / sigma ^ 2 + ln (sigma ^ 2))
       data yerr).

(** Every disc of a flat parameter list has [a + b >= 0]. *)
Fixpoint sums_nonneg (models : list R) : Prop :=
  match models with
  | a :: b :: M :: models' => 0 <= a + b /\ sums_nonneg models'
  | _ => True
  end.

Section Sampling.

(** numpy's [1e-4 * np.random.randn(ndim)] for walker [i], and emcee's
    [run_mcmc]: from the log-probability, the start positions and the
    number of steps to the chain, one list of steps per walker. *)
Variable randn : nat -> nat -> list R.
Variable run_mcmc :
  (list R -> result loglike) -> list (list R) -> nat -> list (list (list R)).
Variable fminbound : (R -> result R) -> R -> R -> result R.

(** [fit_data(burnin)]: [nstp = 0.5 * n_steps] is cut to an integer when it
    indexes the chain; [reshape((-1, ndim))] lays the walkers' remaining
    steps end to end. *)
Definition fit_data (self : fitter) (burnin : R) : run fitter (list (list R)) :=
  let pos :=
    (fun i => zip_with Rplus (models self)
                ((fun e => / 10 ^ 4 * e) <$> randn i (ndim self)))
      <$> seq 0 (n_walkers self) in
  let chain := run_mcmc (loglikelihood fminbound self) pos (n_steps self) in
  let nstp := (n_steps self / 2)%nat in
  let samples := concat ((fun walker => drop nstp walker) <$> chain) in
  Run (Ok samples)
      (Fit (n_walkers self) (n_steps self) samples (models self) (axes self)
           (ndim self) (fit_type self) (data self) (yerr self)
           (check_DP self))
      [].

End Sampling.

End Fitter.

(** ** The object store: which Python lists are shared

    [get_model] and [get_models] promise a copy.  To say so, the lists of
    a model are placed in a store of mutable objects: a model object holds
    the addresses of its two lists, [+=] and [append] update them in
    place, and a new list is allocated at an address the store does not
    use yet.  Floats, strings and tuples are immutable values. *)

Module Store.

Definition loc : Type := positive.

Inductive pyobj : Type :=
| Floats (items : list R)
| Strs (items : list string)
| Tuples (items : list (string * list R))
| Row (items : string * list R)
| Refs (items : list loc).

Record object : Type := Object {
  floats_at : loc;
  axes_at : loc;
  diz : R
}.

(** [MNnModel(diz)] and [MMNModel(diz)]: two new empty lists. *)
Definition new_object (diz : R) (h : gmap loc pyobj) : object * gmap loc pyobj :=
  let d := fresh (dom h) in
  let h1 := <[d := Floats []]> h in
  let a := fresh (dom h1) in
  (Object d a diz, <[a := Strs []]> h1).

(** The two lists of an object, as the store holds them. *)
Definition lists_of (self : object) (h : gmap loc pyobj)
    : option (list R * list string) :=
  match h !! floats_at self, h !! axes_at self with
  | Some (Floats d), Some (Strs a) => Some (d, a)
  | _, _ => None
  end.

Definition update_lists (self : object) (d : list R) (a : list string)
    (h : gmap loc pyobj) : gmap loc pyobj :=
  <[axes_at self := Strs a]> (<[floats_at self := Floats d]> h).

(** [MNnModel.add_disc] on the store: [self.discs += [a, b, M]] and
    [self.axes.append(axis)] change the two lists where they are. *)
Definition add_disc (self : object) (axis : string) (a b M : R)
    (h : gmap loc pyobj) : option (result unit * gmap loc pyobj) :=
  '(d, ax) ← lists_of self h;
  let r := MNn.add_disc axis a b M (MNn.Model d ax (diz self)) in
  Some (ret r, update_lists self (MNn.discs (after r)) (MNn.axes (after r)) h).

(** [MMNModel.add_model] on the store. *)
Definition add_model (self : object) (axis : string) (a b M : R)
    (h : gmap loc pyobj) : option (result unit * gmap loc pyobj) :=
  '(d, ax) ← lists_of self h;
  let r := MMN.add_model axis a b M (MMN.Model d ax (diz self)) in
  Some (ret r, update_lists self (MMN.models (after r)) (MMN.axes (after r)) h).

(** A sequence of calls of one of the two, each of which must succeed. *)
Fixpoint add_all
    (add : object -> string -> R -> R -> R -> gmap loc pyobj ->
           option (result unit * gmap loc pyobj))
    (self : object) (values : list (string * R * R * R))
    (h : gmap loc pyobj) : option (gmap loc pyobj) :=
  match values with
  | [] => Some h
  | (axis, a, b, M) :: values' =>
    match add self axis a b M h with
    | Some (Ok _, h') => add_all add self values' h'
    | _ => None
    end
  end.

(** [MNnModel.get_model] on the store: [res] is a new list, its items are
    tuples. *)
Definition get_model (self : object) (h : gmap loc pyobj)
    : option (loc * gmap loc pyobj) :=
  '(d, ax) ← lists_of self h;
  let res := fresh (dom h) in
  Some (res, <[res := Tuples (MNn.get_model (MNn.Model d ax (diz self)))]> h).

(** [res += [[axis] + self.models[...]]], once per row: the row is a new
    list, and its address is appended to [res]. *)
Definition push_ref (l : loc) (o : pyobj) : pyobj :=
  match o with
  | Refs items => Refs (items ++ [l])
  | other => other
  end.

Fixpoint push_rows (rows : list (string * list R)) (res : loc)
    (h : gmap loc pyobj) : gmap loc pyobj :=
  match rows with
  | [] => h
  | row :: rows' =>
    let l := fresh (dom h) in
    push_rows rows' res (alter (push_ref l) res (<[l := Row row]> h))
  end.

(** [MMNModel.get_models] on the store: a new list of new lists. *)
Definition get_models (self : object) (h : gmap loc pyobj)
    : option (loc * gmap loc pyobj) :=
  '(d, ax) ← lists_of self h;
  let res := fresh (dom h) in
  Some (res, push_rows (MMN.get_models (MMN.Model d ax (diz self))) res
                       (<[res := Refs []]> h)).

(** Reading a returned list back: its tuples, or the rows its addresses
    lead to. *)
Definition row_at (h : gmap loc pyobj) (l : loc) : option (string * list R) :=
  match h !! l with
  | Some (Row r) => Some r
  | _ => None
  end.

Definition contents (h : gmap loc pyobj) (res : loc)
    : option (list (string * list R)) :=
  match h !! res with
  | Some (Tuples items) => Some items
  | Some (Refs ls) => mapM (row_at h) ls
  | _ => None
  end.

(** The addresses a returned list can be changed through: the list
    itself and, for a list of lists, each of its rows. *)
Definition reachable (h : gmap loc pyobj) (res : loc) : list loc :=
  match h !! res with
  | Some (Refs ls) => res :: ls
  | _ => [res]
  end.

End Store.

(** ** The calls a client can make on a model, and what they leave *)

Module Calls.

Inductive call : Type :=
| AddDisc (axis : string) (a b M : R)
| AddDiscs (values : list (string * R * R * R))
| LoadFromArray (rows : list (list R)) (axs : list string)
| GetModel
| EvaluatePotential (x y z : R)
| EvaluateDensity (x y z : R)
| EvaluateForce (x y z : R)
| IsPositiveDefinite (max_range : option R).

(** The model after a call on [MNnModel]: only the three adding methods
    assign to [self.discs] or [self.axes]. *)
Definition mnn_after (c : call) (self : MNn.model) : MNn.model :=
  match c with
  | AddDisc axis a b M => after (MNn.add_disc axis a b M self)
  | AddDiscs values => after (MNn.add_discs values self)
  | LoadFromArray rows axs => after (MNn.load_from_array rows axs self)
  | GetModel
  | EvaluatePotential _ _ _
  | EvaluateDensity _ _ _
  | EvaluateForce _ _ _
  | IsPositiveDefinite _ => self
  end.

(** The model after a call on [MMNModel], which has no
    [load_from_array] and no [max_range]. *)
Definition mmn_after (c : call) (self : MMN.model) : MMN.model :=
  match c with
  | AddDisc axis a b M => after (MMN.add_model axis a b M self)
  | AddDiscs values => after (MMN.add_models values self)
  | LoadFromArray _ _
  | GetModel
  | EvaluatePotential _ _ _
  | EvaluateDensity _ _ _
  | EvaluateForce _ _ _
  | IsPositiveDefinite _ => self
  end.

(** The flat parameters, the axes and the tuples of a sequence of added
    discs. *)
Definition params_of (values : list (string * R * R * R)) : list R :=
  values ≫= (fun v => let '(_, a, b, M) := v in [a; b; M]).

Definition axes_of (values : list (string * R * R * R)) : list string :=
  (fun v => let '(axis, _, _, _) := v in axis) <$> values.

Definition tuples_of (values : list (string * R * R * R))
    : list (string * list R) :=
  (fun v => let '(axis, a, b, M) := v in (axis, [a; b; M])) <$> values.

(** The structural invariant: three stored reals per stored axis. *)
Definition mnn_inv (self : MNn.model) : Prop :=
  length (MNn.discs self) = (3 * length (MNn.axes self))%nat.

Definition mmn_inv (self : MMN.model) : Prop :=
  length (MMN.models self) = (3 * length (MMN.axes self))%nat.

End Calls.

(** ** Sums over the discs of a model *)

Module Sums.

Definition total (terms : list R) : R := foldr Rplus 0 terms.

Definition vtotal (terms : list vec3) : vec3 := foldr vadd (0, 0, 0) terms.

(** One disc's share of a scalar quantity, and of the force, at a
    point. *)
Definition scalar_of (cb : R -> R -> R -> R -> R -> R) (x y z : R)
    (v : string * R * R * R) : R :=
  let '(axis, a, b, M) := v in on_axis cb x y z axis a b M.

Definition force_of (x y z : R) (v : string * R * R * R) : vec3 :=
  let '(axis, a, b, M) := v in MNn.disc_force x y z axis a b M.

(** An ordinary Miyamoto-Nagai disc: a scale that is not negative, a
    height that is not zero and a mass that is not negative. *)
Definition ordinary_disc (v : string * R * R * R) : Prop :=
  0 <= v.1.1.2 /\ v.1.2 <> 0 /\ 0 <= v.2.

(** What a sequence of accepted discs prints: one warning per disc with
    [a + b < 0], in order. *)
Definition warnings_of (values : list (string * R * R * R)) : list output :=
  values ≫= (fun v => let '(_, a, b, _) := v in
                      if Rltb (a + b) 0 then [WarnNegativeSum a b] else []).

(** The rows and the axes [load_from_array] takes, from a sequence of
    discs. *)
Definition rows_of (values : list (string * R * R * R)) : list (list R) :=
  (fun v => let '(_, a, b, M) := v in [a; b; M]) <$> values.

(** A disc away from the singular cases of the formulas: a height that
    is not zero, and [a + |b| > 0]. *)
Definition regular_disc (v : string * R * R * R) : Prop :=
  v.1.2 <> 0 /\ 0 < v.1.1.2 + Rabs v.1.2.

End Sums.

(** * Properties *)

(** ** Comparisons and square roots *)

Lemma Rltb_true (x y : R) : x < y -> Rltb x y = true.
Proof. intros H. unfold Rltb. destruct (Rlt_dec x y); [reflexivity | contradiction]. Qed.

Lemma Rltb_false (x y : R) : ~ x < y -> Rltb x y = false.
Proof. intros H. unfold Rltb. destruct (Rlt_dec x y); [contradiction | reflexivity]. Qed.

Lemma sqrt_sq_abs (x : R) : sqrt (x ^ 2) = Rabs x.
Proof.
  replace (x ^ 2) with (Rsqr x) by (unfold Rsqr; ring).
  apply sqrt_Rsqr_abs.
Qed.

Lemma sqrt_sq_nonneg (x : R) : 0 <= x -> sqrt (x ^ 2) = x.
Proof. intros H. rewrite sqrt_sq_abs. apply Rabs_pos_eq, H. Qed.

Lemma G_pos : 0 < G.
Proof. unfold G. lra. Qed.

(** The slice of the [k]-th disc of a flat list. *)
Lemma slice_app_triple (pre rest : list R) (a b M : R) (k : nat) :
  length pre = (k * 3)%nat ->
  slice (pre ++ a :: b :: M :: rest) (k * 3) ((k + 1) * 3) = [a; b; M].
Proof.
  intros H. unfold slice.
  replace ((k + 1) * 3 - k * 3)%nat with 3%nat by lia.
  rewrite <- H, drop_app_length. reflexivity.
Qed.

(** ** Adding discs *)

Lemma mnn_add_disc_rejects (axis : string) (a b M : R) (self : MNn.model) :
  b < 0 -> MNn.add_disc axis a b M self = Run (Raise MNnError) self [].
Proof. intros H. unfold MNn.add_disc. rewrite (Rltb_true _ _ H). reflexivity. Qed.

Lemma mnn_add_disc_accepts (axis : string) (a b M : R) (self : MNn.model) :
  0 <= b ->
  MNn.add_disc axis a b M self =
  Run (Ok tt)
      (MNn.Model (MNn.discs self ++ [a; b; M]) (MNn.axes self ++ [axis])
                 (MNn.diz self))
      (if Rltb (a + b) 0 then [WarnNegativeSum a b] else []).
Proof.
  intros H. unfold MNn.add_disc. rewrite Rltb_false by lra. reflexivity.
Qed.

(** C3, as stated, fails on [MMNModel.add_model]: with [b = -1] the call
    neither raises nor leaves the model as it was. *)
Lemma add_model_accepts_negative_height :
  ~ (ret (MMN.add_model "z" 1 (-1) 1 (MMN.init 1)) = Raise MNnError /\
     after (MMN.add_model "z" 1 (-1) 1 (MMN.init 1)) = MMN.init 1).
Proof. intros [H _]. discriminate H. Qed.

(** C3, amended: [MNnModel.add_disc] raises [MNnError] and stores nothing
    when [b < 0]; when [b >= 0] it appends the disc, for every axis and all
    reals [a], [M], and what it prints is the warning exactly when
    [a + b < 0].  [MMNModel.add_model] checks nothing: it appends the disc
    and prints nothing, whatever [b] is. *)
Theorem add_disc_constraints (axis : string) (a b M : R) :
  (forall self : MNn.model,
     (b < 0 ->
      ret (MNn.add_disc axis a b M self) = Raise MNnError /\
      after (MNn.add_disc axis a b M self) = self) /\
     (0 <= b ->
      ret (MNn.add_disc axis a b M self) = Ok tt /\
      MNn.discs (after (MNn.add_disc axis a b M self)) =
        MNn.discs self ++ [a; b; M] /\
      MNn.axes (after (MNn.add_disc axis a b M self)) =
        MNn.axes self ++ [axis] /\
      (a + b < 0 ->
       printed (MNn.add_disc axis a b M self) = [WarnNegativeSum a b]) /\
      (0 <= a + b -> printed (MNn.add_disc axis a b M self) = []))) /\
  (forall self : MMN.model,
     ret (MMN.add_model axis a b M self) = Ok tt /\
     MMN.models (after (MMN.add_model axis a b M self)) =
       MMN.models self ++ [a; b; M] /\
     MMN.axes (after (MMN.add_model axis a b M self)) =
       MMN.axes self ++ [axis] /\
     printed (MMN.add_model axis a b M self) = []).
Proof.
  split.
  - intros self. split.
    + intros Hb. rewrite mnn_add_disc_rejects by assumption. split; reflexivity.
    + intros Hb. rewrite mnn_add_disc_accepts by assumption. cbn.
      repeat split; try reflexivity.
      * intros Hab. rewrite Rltb_true by assumption. reflexivity.
      * intros Hab. rewrite Rltb_false by lra. reflexivity.
  - intros self. repeat split; reflexivity.
Qed.

(** The amended C3 at [b = -1] (rejected), at [b = 0] (accepted) and at
    [a = -2], [b = 1] (accepted with the warning). *)
Lemma add_disc_constraints_witness :
  (ret (MNn.add_disc "z" 1 (-1) 1 (MNn.init 1)) = Raise MNnError /\
   after (MNn.add_disc "z" 1 (-1) 1 (MNn.init 1)) = MNn.init 1) /\
  MNn.discs (after (MNn.add_disc "x" 1 0 1 (MNn.init 1))) = [1; 0; 1] /\
  printed (MNn.add_disc "y" (-2) 1 1 (MNn.init 1)) = [WarnNegativeSum (-2) 1].
Proof.
  split; [| split].
  - apply (add_disc_constraints "z" 1 (-1) 1). lra.
  - apply (add_disc_constraints "x" 1 0 1). lra.
  - apply (add_disc_constraints "y" (-2) 1 1); lra.
Defined.

(** ** Summing over discs *)

(** Replace [sqrt e] by the number [v], given that [e] is [v^2] and
    [0 <= v]. *)
Ltac sqrt_is e v :=
  replace (sqrt e) with v
    by (symmetry; replace e with (v ^ 2) by (try (simpl; lra); field);
        apply sqrt_sq_nonneg; lra).

Lemma mnn_one_disc_scalar (cb : R -> R -> R -> R -> R -> R)
    (ax : string) (a b M dz x y z : R) :
  MNn._evaluate_scalar_quantity (MNn.Model [a; b; M] [ax] dz) x y z cb =
  Ok (on_axis cb x y z ax a b M).
Proof. reflexivity. Qed.

Lemma mnn_two_discs_scalar (cb : R -> R -> R -> R -> R -> R)
    (ax0 ax1 : string) (a0 b0 M0 a1 b1 M1 dz x y z : R) :
  MNn._evaluate_scalar_quantity
    (MNn.Model [a0; b0; M0; a1; b1; M1] [ax0; ax1] dz) x y z cb =
  Ok (on_axis cb x y z ax0 a0 b0 M0 + on_axis cb x y z ax1 a1 b1 M1).
Proof. reflexivity. Qed.

Lemma mnn_one_disc_force (ax : string) (a b M dz x y z : R) :
  MNn.evaluate_force (MNn.Model [a; b; M] [ax] dz) x y z =
  Ok (MNn.disc_force x y z ax a b M).
Proof. reflexivity. Qed.

Lemma mnn_two_discs_force (ax0 ax1 : string)
    (a0 b0 M0 a1 b1 M1 dz x y z : R) :
  MNn.evaluate_force
    (MNn.Model [a0; b0; M0; a1; b1; M1] [ax0; ax1] dz) x y z =
  Ok (vadd (MNn.disc_force x y z ax0 a0 b0 M0)
           (MNn.disc_force x y z ax1 a1 b1 M1)).
Proof. reflexivity. Qed.

Lemma mmn_one_disc (cb : R -> R -> R -> R -> R -> R)
    (ax : string) (a b M dz x y z : R) :
  MMN._evaluate_quantity (MMN.Model [a; b; M] [ax] dz) x y z cb =
  Ok (on_axis cb x y z ax a b M).
Proof. reflexivity. Qed.

(** On two discs [MMNModel._evaluate_quantity] adds the first disc to
    itself: [id_mod] restarts at 0 in the loop. *)
Lemma mmn_two_discs_repeat_first (cb : R -> R -> R -> R -> R -> R)
    (ax0 ax1 : string) (a0 b0 M0 a1 b1 M1 dz x y z : R) :
  MMN._evaluate_quantity
    (MMN.Model [a0; b0; M0; a1; b1; M1] [ax0; ax1] dz) x y z cb =
  Ok (on_axis cb x y z ax0 a0 b0 M0 + on_axis cb x y z ax0 a0 b0 M0).
Proof. reflexivity. Qed.

Lemma mmn_potential_abs (r z a b Mo : R) :
  MMN.mn_potential r z a b Mo =
  - G * Rabs Mo / sqrt (r ^ 2 + (a + sqrt (z ^ 2 + b ^ 2)) ^ 2).
Proof. unfold MMN.mn_potential, G. cbv zeta. rewrite sqrt_sq_abs. reflexivity. Qed.

Lemma mmn_potential_origin (M : R) :
  on_axis MMN.mn_potential 0 0 0 "z" 0 1 M = - G * Rabs M.
Proof.
  unfold on_axis. cbn [String.eqb Ascii.eqb Bool.eqb]. cbv zeta.
  rewrite mmn_potential_abs.
  sqrt_is (0 ^ 2 + 0 ^ 2) 0.
  sqrt_is (0 ^ 2 + 1 ^ 2) 1.
  sqrt_is (0 ^ 2 + (0 + 1) ^ 2) 1.
  field.
Qed.

(** C1 on [MMNModel]: at the origin, the model of the two discs
    [("z", 0, 1, 1)] and [("z", 0, 1, 3)] has potential [-2 G], the first
    disc counted twice, while the two discs alone have [-G] and [-3 G],
    whose sum is [-4 G]. *)
Theorem mmn_two_discs_not_the_sum :
  MMN.evaluate_potential (MMN.Model [0; 1; 1; 0; 1; 3] ["z"; "z"] 1) 0 0 0 =
    Ok (- (2 * G)) /\
  MMN.evaluate_potential (MMN.Model [0; 1; 1] ["z"] 1) 0 0 0 = Ok (- G) /\
  MMN.evaluate_potential (MMN.Model [0; 1; 3] ["z"] 1) 0 0 0 =
    Ok (- (3 * G)) /\
  - (2 * G) <> - G + - (3 * G).
Proof.
  unfold MMN.evaluate_potential.
  rewrite mmn_two_discs_repeat_first, !mmn_one_disc, !mmn_potential_origin.
  rewrite !Rabs_pos_eq by lra.
  repeat split; try (f_equal; lra).
  pose proof G_pos. lra.
Qed.

(** ** The closed forms of one disc *)

Lemma mnn_potential_formula (r z a b M : R) :
  MNn.mn_potential r z a b M =
  - G * M / sqrt (r ^ 2 + (a + sqrt (z ^ 2 + b ^ 2)) ^ 2).
Proof. reflexivity. Qed.

Lemma mmn_density_abs (r z a b M : R) :
  MMN.mn_density r z a b M = MNn.mn_density r z a b (Rabs M).
Proof.
  unfold MMN.mn_density, MNn.mn_density. cbv zeta.
  rewrite sqrt_sq_abs. reflexivity.
Qed.

Lemma mmn_potential_mnn_abs (r z a b M : R) :
  MMN.mn_potential r z a b M = MNn.mn_potential r z a b (Rabs M).
Proof. rewrite mmn_potential_abs, mnn_potential_formula. reflexivity. Qed.

Lemma mnn_density_opp (r z a b M : R) :
  MNn.mn_density r z a b (- M) = - MNn.mn_density r z a b M.
Proof. unfold MNn.mn_density, Rdiv. cbv zeta. ring. Qed.

Lemma mnn_potential_opp (r z a b M : R) :
  MNn.mn_potential r z a b (- M) = - MNn.mn_potential r z a b M.
Proof. unfold MNn.mn_potential, Rdiv. cbv zeta. ring. Qed.

Lemma potential_one_disc_origin :
  on_axis MNn.mn_potential 0 0 0 "z" 1 (1 / 10) 50 =
  - G * 50 / (1 + 1 / 10).
Proof.
  unfold on_axis. cbn [String.eqb Ascii.eqb Bool.eqb]. cbv zeta.
  rewrite mnn_potential_formula.
  sqrt_is (0 ^ 2 + 0 ^ 2) 0.
  sqrt_is (0 ^ 2 + (1 / 10) ^ 2) (1 / 10).
  sqrt_is (0 ^ 2 + (1 + 1 / 10) ^ 2) (1 + 1 / 10).
  reflexivity.
Qed.

(** C7, as stated, fails on [MMNModel.mn_potential]: for [M = -1] at
    [r = z = a = 0], [b = 1] it is [-G], not [-G * (-1)]. *)
Lemma mmn_potential_negative_mass :
  MMN.mn_potential 0 0 0 1 (-1) <>
  - G * (-1) / sqrt (0 ^ 2 + (0 + sqrt (0 ^ 2 + 1 ^ 2)) ^ 2).
Proof.
  rewrite mmn_potential_abs.
  sqrt_is (0 ^ 2 + 1 ^ 2) 1.
  sqrt_is (0 ^ 2 + (0 + 1) ^ 2) 1.
  rewrite Rabs_left by lra.
  pose proof G_pos. lra.
Qed.

(** C7, amended: with [G = 0.0043008211] and [h = sqrt (z^2 + b^2)], the
    potential of one disc is [-G M / sqrt (r^2 + (a+h)^2)] in [MNnModel]
    for every [M], and [-G |M| / sqrt (r^2 + (a+h)^2)] in [MMNModel]; the
    one-disc model [("z", 1.0, 0.1, 50.0)] has potential
    [-G 50 / (1 + 0.1)] at the origin in both. *)
Theorem potential_closed_form :
  G = 43008211 / 10000000000 /\
  (forall r z a b M : R,
     MNn.mn_potential r z a b M =
     - G * M / sqrt (r ^ 2 + (a + sqrt (z ^ 2 + b ^ 2)) ^ 2)) /\
  (forall r z a b M : R,
     MMN.mn_potential r z a b M =
     - G * Rabs M / sqrt (r ^ 2 + (a + sqrt (z ^ 2 + b ^ 2)) ^ 2)) /\
  MNn.evaluate_potential (MNn.Model [1; 1 / 10; 50] ["z"] 1) 0 0 0 =
    Ok (- G * 50 / (1 + 1 / 10)) /\
  MMN.evaluate_potential (MMN.Model [1; 1 / 10; 50] ["z"] 1) 0 0 0 =
    Ok (- G * 50 / (1 + 1 / 10)).
Proof.
  split; [reflexivity |]. split; [exact mnn_potential_formula |].
  split; [exact mmn_potential_abs |]. split.
  - unfold MNn.evaluate_potential.
    rewrite mnn_one_disc_scalar, potential_one_disc_origin. reflexivity.
  - unfold MMN.evaluate_potential. rewrite mmn_one_disc. f_equal.
    rewrite <- potential_one_disc_origin. unfold on_axis.
    cbn [String.eqb Ascii.eqb Bool.eqb]. cbv zeta.
    rewrite mmn_potential_mnn_abs, Rabs_pos_eq by lra. reflexivity.
Qed.

(** C9: the density and the potential of [MMNModel] are those of
    [MNnModel] at the amplitude [|M|]; the two variants agree for every
    [M >= 0], and for [M < 0] they differ wherever the value is not
    zero. *)
Theorem variants_differ_by_abs (r z a b M : R) :
  (MMN.mn_density r z a b M = MNn.mn_density r z a b (Rabs M) /\
   MMN.mn_potential r z a b M = MNn.mn_potential r z a b (Rabs M)) /\
  (0 <= M ->
   MMN.mn_density r z a b M = MNn.mn_density r z a b M /\
   MMN.mn_potential r z a b M = MNn.mn_potential r z a b M) /\
  (M < 0 ->
   (MNn.mn_density r z a b M <> 0 ->
    MMN.mn_density r z a b M <> MNn.mn_density r z a b M) /\
   (MNn.mn_potential r z a b M <> 0 ->
    MMN.mn_potential r z a b M <> MNn.mn_potential r z a b M)).
Proof.
  rewrite mmn_density_abs, mmn_potential_mnn_abs.
  split; [split; reflexivity |]. split.
  - intros HM. rewrite Rabs_pos_eq by assumption. split; reflexivity.
  - intros HM. rewrite Rabs_left by assumption.
    rewrite mnn_density_opp, mnn_potential_opp. split; intros Hnz; lra.
Qed.

(** C9 at [r = z = a = 0], [b = 1]: equal potentials for [M = 1],
    different ones for [M = -1], where the value is [G]. *)
Lemma variants_differ_by_abs_witness :
  MMN.mn_potential 0 0 0 1 1 = MNn.mn_potential 0 0 0 1 1 /\
  MMN.mn_potential 0 0 0 1 (-1) <> MNn.mn_potential 0 0 0 1 (-1).
Proof.
  split.
  - apply (variants_differ_by_abs 0 0 0 1 1). lra.
  - apply (variants_differ_by_abs 0 0 0 1 (-1)); [lra |].
    rewrite mnn_potential_formula.
    sqrt_is (0 ^ 2 + 1 ^ 2) 1.
    sqrt_is (0 ^ 2 + (0 + 1) ^ 2) 1.
    pose proof G_pos. lra.
Defined.

(** ** The likelihood *)

Lemma slice_first3 (models : list R) :
  slice models (0 * 3) ((0 + 1) * 3) = slice models 0 3.
Proof. reflexivity. Qed.

(** C2: with the check for positive definiteness switched on (the
    default), a parameter vector whose first disc has [a + b >= 0] makes
    [loglikelihood] raise AttributeError: [a, b, M = ...] has overwritten
    the model held in [M] by a float, and [M.add_model] is called on it. *)
Theorem loglikelihood_raises
    (fminbound : (R -> result R) -> R -> R -> result R)
    (self : Fitter.fitter) (models : list R)
    (axis : string) (rest : list string) (a b M : R) :
  Fitter.check_DP self = true ->
  Fitter.axes self = axis :: rest ->
  slice models 0 3 = [a; b; M] ->
  0 <= a + b ->
  Fitter.loglikelihood fminbound self models = Raise AttributeError.
Proof.
  intros Hdp Hax Hsl Hab. unfold Fitter.loglikelihood.
  rewrite Hax. cbn [Fitter.check_loop]. rewrite slice_first3, Hsl.
  cbn [unpack3 mbind result_bind]. rewrite Rltb_false by lra.
  rewrite Hdp. reflexivity.
Qed.

(** C2 at one disc on the [xy] plane with [a = b = M = 1], one data row
    and the default configuration. *)
Lemma loglikelihood_raises_witness :
  Fitter.loglikelihood (fun _ _ _ => Ok 0)
    (Fitter.Fit 100 1000 [] [1; 1; 1] ["z"] 3 "potential"
                [(0, 0, 0, 0)] [1] true)
    [1; 1; 1] = Raise AttributeError.
Proof.
  apply (loglikelihood_raises _ _ _ "z" [] 1 1 1); try reflexivity. lra.
Defined.

(** C6: with the fit type ["force"] and no check for positive
    definiteness, the valid vector [a = b = M = 1] has no likelihood:
    [sMN] looks up [MMNModel.mn_force], which the class does not
    define. *)
Theorem loglikelihood_force_raises
    (fminbound : (R -> result R) -> R -> R -> result R) :
  Fitter.loglikelihood fminbound
    (Fitter.Fit 100 1000 [] [1; 1; 1] ["z"] 3 "force"
                [(0, 0, 0, 0)] [1] false)
    [1; 1; 1] = Raise AttributeError.
Proof.
  unfold Fitter.loglikelihood.
  cbn [Fitter.axes Fitter.check_loop]. rewrite slice_first3.
  cbn [slice take drop Nat.sub unpack3 mbind result_bind].
  rewrite Rltb_false by lra.
  reflexivity.
Qed.

(** ** Positive definiteness *)

(** C4: on the one-disc model [("z", 1, 0.1, 50)] and no [max_range], the
    scale found for the [x] axis is 1 and the range 10, yet the upper
    bound handed to the minimiser is [max_range] itself, [None]: a
    minimiser that refuses such a bound makes the whole check fail. *)
Theorem is_positive_definite_passes_None
    (fminbound : (R -> result R) -> R -> option R -> result (R * R * Z * nat))
    (e : exn) :
  (forall f lo, fminbound f lo None = Raise e) ->
  MNn.is_positive_definite fminbound
    (MNn.Model [1; 1 / 10; 50] ["z"] 1) None = Raise e.
Proof.
  intros Hnone. unfold MNn.is_positive_definite, MNn.get_model.
  cbn [MNn.axes MNn.discs imap slice take drop Nat.sub Nat.mul Nat.add].
  cbn [MNn.axis_loop MNn.largest_scale fst snd String.eqb Ascii.eqb
       Bool.eqb negb head_item mbind result_bind].
  unfold Rgtb. rewrite (Rltb_true 0 1) by lra.
  rewrite Rltb_false.
  - rewrite !Hnone. reflexivity.
  - rewrite Rabs_pos_eq by lra.
    assert (0 < 10 ^ 18) by (apply pow_lt; lra).
    assert (/ 10 ^ 18 <= / 1).
    { apply Rinv_le_contravar; [lra |]. apply pow_R1_Rle. lra. }
    lra.
Qed.

(** C4 for a minimiser that accepts the range of the claim, [0, 10], and
    nothing else. *)
Lemma is_positive_definite_passes_None_witness :
  MNn.is_positive_definite
    (fun _ _ hi => match hi with
                   | Some _ => Ok (0, 0, 0%Z, 0%nat)
                   | None => Raise TypeError
                   end)
    (MNn.Model [1; 1 / 10; 50] ["z"] 1) None = Raise TypeError.
Proof.
  apply (is_positive_definite_passes_None _ TypeError). reflexivity.
Defined.

(** ** Sampling *)

Lemma fit_data_ignores_burnin
    (randn : nat -> nat -> list R)
    (run_mcmc : (list R -> result Fitter.loglike) -> list (list R) -> nat ->
                list (list (list R)))
    (fminbound : (R -> result R) -> R -> R -> result R)
    (self : Fitter.fitter) (burnin burnin' : R) :
  Fitter.fit_data randn run_mcmc fminbound self burnin =
  Fitter.fit_data randn run_mcmc fminbound self burnin'.
Proof. reflexivity. Qed.

(** C5: a chain of one walker and four steps [s1 .. s4], asked for with
    the burn-in fraction 1/4 and with 3/4, gives [s3; s4] both times: the
    first half is dropped and [burnin] is not read. *)
Theorem fit_data_drops_half_whatever_burnin
    (randn : nat -> nat -> list R)
    (fminbound : (R -> result R) -> R -> R -> result R)
    (s1 s2 s3 s4 : list R) :
  let self := Fitter.Fit 1 4 [] [1; 1; 1] ["z"] 3 "potential"
                         [(0, 0, 0, 0)] [1] false in
  let run_mcmc := fun _ _ _ => [[s1; s2; s3; s4]] in
  ret (Fitter.fit_data randn run_mcmc fminbound self (1 / 4)) = Ok [s3; s4] /\
  ret (Fitter.fit_data randn run_mcmc fminbound self (3 / 4)) = Ok [s3; s4].
Proof. split; reflexivity. Qed.

(** *** The likelihood of a valid vector, without the check

    With [check_DP] off and the fit type ["density"] or ["potential"],
    [loglikelihood] does return the Gaussian sum of the specification. *)

Lemma check_loop_passes
    (fminbound : (R -> result R) -> R -> R -> result R)
    (self : Fitter.fitter) (rest : list string) :
  Fitter.check_DP self = false ->
  forall (pre ms : list R) (k : nat) (M_var : Fitter.local_M),
    length pre = (k * 3)%nat ->
    length ms = (3 * length rest)%nat ->
    Fitter.sums_nonneg ms ->
    exists M_var',
      Fitter.check_loop self (pre ++ ms) rest k M_var = Ok (inr M_var').
Proof.
  intros Hdp. induction rest as [| axis rest IH]; intros pre ms k Mv Hk Hms Hok.
  - exists Mv. reflexivity.
  - destruct ms as [| a [| b [| M ms]]]; try (cbn in Hms; lia).
    destruct Hok as [Hab Hok]. cbn [Fitter.check_loop].
    rewrite slice_app_triple by exact Hk.
    cbn [unpack3 mbind result_bind]. rewrite Rltb_false by lra. rewrite Hdp.
    replace (pre ++ a :: b :: M :: ms) with ((pre ++ [a; b; M]) ++ ms)
      by (rewrite <- app_assoc; reflexivity).
    apply IH.
    + rewrite length_app, Hk. cbn. lia.
    + cbn in Hms. lia.
    + exact Hok.
Qed.

Lemma zip_with_fmap_same {A : Type} (op : R -> R -> R) (g v : A -> R)
    (rows : list A) :
  zip_with op (g <$> rows) (v <$> rows) = (fun r => op (g r) (v r)) <$> rows.
Proof. induction rows as [| r rows IH]; cbn; [reflexivity | rewrite IH; reflexivity]. Qed.

Lemma sMN_loop_sums (f : Fitter.eval_func) (rows : list (R * R * R * R))
    (rest : list string) :
  forall (pre ms : list R) (k : nat) (g : R * R * R * R -> R),
    length pre = (k * 3)%nat ->
    length ms = (3 * length rest)%nat ->
    Fitter.sMN_loop f rows (pre ++ ms) rest k (g <$> rows) =
    Ok ((fun row : R * R * R * R =>
           g row + Fitter.predicted f rest ms row.1.1.1 row.1.1.2 row.1.2)
          <$> rows).
Proof.
  induction rest as [| axis rest IH]; intros pre ms k g Hk Hms.
  - cbn. f_equal. apply list_fmap_ext. intros _ row _. lra.
  - destruct ms as [| a [| b [| M ms]]]; try (cbn in Hms; lia).
    cbn [Fitter.sMN_loop]. rewrite slice_app_triple by exact Hk.
    cbn [unpack3 mbind result_bind]. unfold Fitter.eval_on_data.
    rewrite zip_with_fmap_same.
    replace (pre ++ a :: b :: M :: ms) with ((pre ++ [a; b; M]) ++ ms)
      by (rewrite <- app_assoc; reflexivity).
    rewrite IH.
    + f_equal. apply list_fmap_ext. intros _ [[[x y] z] p] _. cbn. lra.
    + rewrite length_app, Hk. cbn. lia.
    + cbn in Hms. lia.
Qed.

Lemma gaussian_terms (m : R * R * R * R -> R) (rows : list (R * R * R * R)) :
  forall yerr : list R,
    Forall (fun e => e <> 0) yerr ->
    zip_with Rminus
      (zip_with Rmult
         ((fun d => d ^ 2) <$>
            zip_with Rminus ((fun row : R * R * R * R => row.2) <$> rows)
                     (m <$> rows))
         ((fun e => 1 / e ^ 2) <$> yerr))
      (ln <$> ((fun e => 1 / e ^ 2) <$> yerr)) =
    zip_with (fun (row : R * R * R * R) (sigma : R) =>
                (row.2 - m row) ^ 2 / sigma ^ 2 + ln (sigma ^ 2))
             rows yerr.
Proof.
  induction rows as [| row rows IH]; intros yerr Hy.
  - reflexivity.
  - destruct Hy as [| e yerr He Hy]; [reflexivity |].
    cbn [fmap list_fmap zip_with]. rewrite <- (IH yerr Hy). f_equal.
    assert (0 < e ^ 2)
      by (pose proof (pow2_ge_0 e); pose proof (pow_nonzero e 2 He); lra).
    unfold Rdiv at 2. rewrite Rmult_1_l, ln_Rinv by assumption.
    unfold Rdiv. rewrite Rmult_1_l. ring.
Qed.

Lemma loglikelihood_gaussian
    (fminbound : (R -> result R) -> R -> R -> result R)
    (self : Fitter.fitter) (models : list R) (f : Fitter.eval_func) :
  Fitter.check_DP self = false ->
  Fitter.pick_eval_func (Fitter.fit_type self) = Ok f ->
  length models = (3 * length (Fitter.axes self))%nat ->
  Fitter.axes self <> [] ->
  Fitter.sums_nonneg models ->
  length (Fitter.yerr self) = length (Fitter.data self) ->
  Forall (fun e => e <> 0) (Fitter.yerr self) ->
  Fitter.loglikelihood fminbound self models =
  Ok (Fitter.Finite
        (Fitter.gaussian_spec f (Fitter.axes self) models
                              (Fitter.data self) (Fitter.yerr self))).
Proof.
  intros Hdp Hf Hlen Hax Hok _ Hy. unfold Fitter.loglikelihood.
  destruct (check_loop_passes fminbound self (Fitter.axes self) Hdp [] models 0
              (Fitter.MObject (MMN.init 1)) eq_refl Hlen Hok) as [Mv HMv].
  cbn [app] in HMv. rewrite HMv. cbn [mbind result_bind]. rewrite Hdp.
  unfold Fitter.gaussian, Fitter.sMN.
  assert (Hnz : Nat.eqb (length models) 0 = false).
  { apply Nat.eqb_neq. destruct (Fitter.axes self); [contradiction |].
    cbn in Hlen. lia. }
  rewrite Hnz, Hf. cbn [mbind result_bind].
  pose proof (sMN_loop_sums f (Fitter.data self) (Fitter.axes self) [] models
                0 (fun _ => 0) eq_refl Hlen) as Hsum.
  cbn [app] in Hsum. rewrite Hsum.
  cbn [mbind result_bind]. rewrite gaussian_terms by exact Hy.
  unfold Fitter.gaussian_spec. do 4 f_equal.
  apply zip_with_ext; try reflexivity. intros [[[x y] z] p] sigma. cbn.
  rewrite Rplus_0_l. reflexivity.
Qed.

(** ** Three reals per axis *)

Lemma mnn_add_disc_inv (axis : string) (a b M : R) (self : MNn.model) :
  Calls.mnn_inv self -> Calls.mnn_inv (after (MNn.add_disc axis a b M self)).
Proof.
  unfold Calls.mnn_inv, MNn.add_disc. intros H.
  destruct (Rltb b 0); cbn; [assumption |].
  rewrite !length_app, H. cbn. lia.
Qed.

Lemma mnn_add_discs_inv (values : list (string * R * R * R)) :
  forall self : MNn.model,
    Calls.mnn_inv self -> Calls.mnn_inv (after (MNn.add_discs values self)).
Proof.
  induction values as [| [[[axis a] b] M] values IH]; intros self H.
  - exact H.
  - cbn [MNn.add_discs].
    pose proof (mnn_add_disc_inv axis a b M self H) as H1.
    destruct (ret (MNn.add_disc axis a b M self)); cbn [after].
    + apply IH, H1.
    + exact H1.
Qed.

Lemma mnn_load_from_array_inv (rows : list (list R)) :
  forall (axs : list string) (self : MNn.model),
    Calls.mnn_inv self ->
    Calls.mnn_inv (after (MNn.load_from_array rows axs self)).
Proof.
  induction rows as [| m rows IH]; intros axs self H.
  - destruct axs; exact H.
  - destruct axs as [| ax axs]; [exact H |].
    cbn [MNn.load_from_array].
    destruct (unpack3 m) as [[[a b] M] | e]; [| exact H].
    pose proof (mnn_add_disc_inv ax a b M self H) as H1.
    destruct (ret (MNn.add_disc ax a b M self)); cbn [after].
    + apply IH, H1.
    + exact H1.
Qed.

Lemma mmn_add_model_inv (axis : string) (a b M : R) (self : MMN.model) :
  Calls.mmn_inv self -> Calls.mmn_inv (after (MMN.add_model axis a b M self)).
Proof.
  unfold Calls.mmn_inv. intros H. cbn. rewrite !length_app, H. cbn. lia.
Qed.

Lemma mmn_add_models_inv (values : list (string * R * R * R)) :
  forall self : MMN.model,
    Calls.mmn_inv self -> Calls.mmn_inv (after (MMN.add_models values self)).
Proof.
  induction values as [| [[[axis a] b] M] values IH]; intros self H.
  - exact H.
  - cbn. apply IH, mmn_add_model_inv, H.
Qed.

(** Under the invariant every slice [l[3i:3i+3]] with [i] below the number
    of axes has three items. *)
Lemma slice_triple_length (l : list R) (n i : nat) :
  length l = (3 * n)%nat -> (i < n)%nat ->
  length (slice l (i * 3) ((i + 1) * 3)) = 3%nat.
Proof.
  intros Hl Hi. unfold slice. rewrite length_take, length_drop. lia.
Qed.

Lemma snapshot_rows (l : list R) (axs : list string) :
  length l = (3 * length axs)%nat ->
  Forall (fun t : string * list R => length t.2 = 3%nat)
         (imap (fun i axis => (axis, slice l (i * 3) ((i + 1) * 3))) axs).
Proof.
  intros Hl. apply Forall_lookup. intros i t Hi.
  rewrite list_lookup_imap in Hi.
  destruct (axs !! i) as [axis |] eqn:Hax; [| discriminate].
  apply lookup_lt_Some in Hax. cbn in Hi. injection Hi as <-. cbn.
  eapply slice_triple_length; eassumption.
Qed.

(** C10: a new model has three reals per axis and every call keeps it
    so, in both variants; a successful addition appends exactly three
    reals and one axis; and the snapshot has one entry per stored axis,
    each the axis followed by three reals. *)
Theorem three_reals_per_axis :
  (forall dz : R, Calls.mnn_inv (MNn.init dz)) /\
  (forall (c : Calls.call) (self : MNn.model),
     Calls.mnn_inv self -> Calls.mnn_inv (Calls.mnn_after c self)) /\
  (forall (axis : string) (a b M : R) (self : MNn.model),
     ret (MNn.add_disc axis a b M self) = Ok tt ->
     MNn.discs (after (MNn.add_disc axis a b M self)) =
       MNn.discs self ++ [a; b; M] /\
     MNn.axes (after (MNn.add_disc axis a b M self)) =
       MNn.axes self ++ [axis]) /\
  (forall self : MNn.model,
     Calls.mnn_inv self ->
     length (MNn.get_model self) = length (MNn.axes self) /\
     Forall (fun t : string * list R => length t.2 = 3%nat)
            (MNn.get_model self)) /\
  (forall dz : R, Calls.mmn_inv (MMN.init dz)) /\
  (forall (c : Calls.call) (self : MMN.model),
     Calls.mmn_inv self -> Calls.mmn_inv (Calls.mmn_after c self)) /\
  (forall (axis : string) (a b M : R) (self : MMN.model),
     MMN.models (after (MMN.add_model axis a b M self)) =
       MMN.models self ++ [a; b; M] /\
     MMN.axes (after (MMN.add_model axis a b M self)) =
       MMN.axes self ++ [axis]) /\
  (forall self : MMN.model,
     Calls.mmn_inv self ->
     length (MMN.get_models self) = length (MMN.axes self) /\
     Forall (fun t : string * list R => length t.2 = 3%nat)
            (MMN.get_models self)).
Proof.
  repeat apply conj.
  - intros dz. reflexivity.
  - intros c self H. destruct c; cbn [Calls.mnn_after]; try exact H.
    + apply mnn_add_disc_inv, H.
    + apply mnn_add_discs_inv, H.
    + apply mnn_load_from_array_inv, H.
  - intros axis a b M self. unfold MNn.add_disc.
    destruct (Rltb b 0); cbn; [discriminate |]. intros _. split; reflexivity.
  - intros self H. unfold MNn.get_model. split.
    + apply length_imap.
    + apply snapshot_rows, H.
  - intros dz. reflexivity.
  - intros c self H. destruct c; cbn [Calls.mmn_after]; try exact H.
    + apply mmn_add_model_inv, H.
    + apply mmn_add_models_inv, H.
  - intros axis a b M self. split; reflexivity.
  - intros self H. unfold MMN.get_models. split.
    + apply length_imap.
    + apply snapshot_rows, H.
Qed.

(** C10 on the model of the two discs [("z", 1, 0.1, 50)] and
    [("x", 1, 0.5, 10)]. *)
Lemma three_reals_per_axis_witness :
  Calls.mnn_inv
    (Calls.mnn_after
       (Calls.AddDiscs [("z", 1, 1 / 10, 50); ("x", 1, 1 / 2, 10)])
       (MNn.init 1)) /\
  MNn.discs (after (MNn.add_disc "z" 1 0 1 (MNn.init 1))) = [1; 0; 1] /\
  length (MNn.get_model (MNn.Model [1; 0; 1] ["z"] 1)) = 1%nat /\
  Calls.mmn_inv (Calls.mmn_after (Calls.AddDisc "z" 1 0 1) (MMN.init 1)) /\
  length (MMN.get_models (MMN.Model [1; 0; 1] ["z"] 1)) = 1%nat.
Proof.
  destruct three_reals_per_axis
    as (Hi & Hstep & Hadd & Hget & Hi' & Hstep' & _ & Hget').
  repeat apply conj.
  - apply Hstep, Hi.
  - apply (Hadd "z" 1 0 1 (MNn.init 1)).
    unfold MNn.add_disc. rewrite Rltb_false by lra. reflexivity.
  - apply (Hget (MNn.Model [1; 0; 1] ["z"] 1)). reflexivity.
  - apply Hstep', Hi'.
  - apply (Hget' (MMN.Model [1; 0; 1] ["z"] 1)). reflexivity.
Defined.

(** ** The snapshot *)

Lemma params_of_cons (axis : string) (a b M : R)
    (values : list (string * R * R * R)) :
  Calls.params_of ((axis, a, b, M) :: values) =
  [a; b; M] ++ Calls.params_of values.
Proof. reflexivity. Qed.

(** The tuples read back from the flat list are the discs that were
    added, in the order they were added. *)
Lemma snapshot_of_values (values : list (string * R * R * R)) :
  forall (pre : list R) (k : nat),
    length pre = (k * 3)%nat ->
    imap (fun i axis =>
            (axis, slice (pre ++ Calls.params_of values)
                         ((k + i) * 3) ((k + i + 1) * 3)))
         (Calls.axes_of values) =
    Calls.tuples_of values.
Proof.
  induction values as [| [[[axis a] b] M] values IH]; intros pre k Hk.
  - reflexivity.
  - change (Calls.axes_of ((axis, a, b, M) :: values))
      with (axis :: Calls.axes_of values).
    change (Calls.tuples_of ((axis, a, b, M) :: values))
      with ((axis, [a; b; M]) :: Calls.tuples_of values).
    rewrite params_of_cons, imap_cons.
    f_equal.
    + f_equal. replace (k + 0)%nat with k by lia.
      apply slice_app_triple, Hk.
    + rewrite <- (IH (pre ++ [a; b; M]) (S k)).
      * apply imap_ext. intros i x _. cbn. f_equal.
        rewrite <- app_assoc.
        replace (k + S i)%nat with (S (k + i)) by lia. reflexivity.
      * rewrite length_app, Hk. cbn. lia.
Qed.

Lemma mnn_get_model_of_values (values : list (string * R * R * R)) (dz : R) :
  MNn.get_model
    (MNn.Model (Calls.params_of values) (Calls.axes_of values) dz) =
  Calls.tuples_of values.
Proof.
  unfold MNn.get_model. cbn [MNn.discs MNn.axes].
  rewrite <- (snapshot_of_values values [] 0) by reflexivity.
  apply imap_ext. intros i x _. reflexivity.
Qed.

Lemma mmn_get_models_of_values (values : list (string * R * R * R)) (dz : R) :
  MMN.get_models
    (MMN.Model (Calls.params_of values) (Calls.axes_of values) dz) =
  Calls.tuples_of values.
Proof.
  unfold MMN.get_models. cbn [MMN.models MMN.axes].
  rewrite <- (snapshot_of_values values [] 0) by reflexivity.
  apply imap_ext. intros i x _. reflexivity.
Qed.

(** *** Lists in the store *)

Lemma lists_of_update (self : Store.object) (d : list R) (a : list string)
    (h : gmap Store.loc Store.pyobj) :
  Store.floats_at self <> Store.axes_at self ->
  Store.lists_of self (Store.update_lists self d a h) = Some (d, a).
Proof.
  intros Hne. unfold Store.lists_of, Store.update_lists.
  rewrite lookup_insert_ne by congruence.
  rewrite !lookup_insert_eq. reflexivity.
Qed.

Lemma lists_of_insert_fresh (self : Store.object) (l : Store.loc)
    (o : Store.pyobj) (h h' : gmap Store.loc Store.pyobj)
    (dl : list R * list string) :
  Store.lists_of self h = Some dl ->
  h !! l = None ->
  (forall l', is_Some (h !! l') -> h' !! l' = h !! l') ->
  Store.lists_of self (<[l := o]> h') = Some dl.
Proof.
  unfold Store.lists_of. intros Hl Hfresh Hsame.
  destruct (h !! Store.floats_at self) as [o1 |] eqn:Hf; [| discriminate].
  destruct (h !! Store.axes_at self) as [oa |] eqn:Ha;
    [| destruct o1; discriminate].
  rewrite !lookup_insert_ne by congruence.
  rewrite (Hsame (Store.floats_at self)), (Hsame (Store.axes_at self)), Hf, Ha
    by (rewrite ?Hf, ?Ha; eauto).
  exact Hl.
Qed.

Lemma fresh_lookup (h : gmap Store.loc Store.pyobj) :
  h !! fresh (dom h) = None.
Proof. apply not_elem_of_dom, is_fresh. Qed.

Lemma new_object_lists (dz : R) (h : gmap Store.loc Store.pyobj) :
  Store.floats_at (Store.new_object dz h).1 <>
    Store.axes_at (Store.new_object dz h).1 /\
  Store.lists_of (Store.new_object dz h).1 (Store.new_object dz h).2 =
    Some ([], []).
Proof.
  unfold Store.new_object. cbn [fst snd Store.floats_at Store.axes_at].
  set (d := fresh (dom h)).
  set (a := fresh (dom (<[d := Store.Floats []]> h))).
  assert (Hne : d <> a).
  { intros Heq. pose proof (fresh_lookup (<[d := Store.Floats []]> h)) as Hf.
    fold a in Hf. rewrite <- Heq, lookup_insert_eq in Hf. discriminate. }
  split; [exact Hne |].
  unfold Store.lists_of. cbn [Store.floats_at Store.axes_at].
  rewrite lookup_insert_ne by congruence.
  rewrite !lookup_insert_eq. reflexivity.
Qed.

(** A sequence of successful [add_disc] calls extends the two lists in
    place. *)
Lemma store_add_disc_all (self : Store.object)
    (values : list (string * R * R * R)) :
  Store.floats_at self <> Store.axes_at self ->
  Forall (fun v : string * R * R * R => 0 <= v.1.2) values ->
  forall (h : gmap Store.loc Store.pyobj) (d : list R) (ax : list string),
    Store.lists_of self h = Some (d, ax) ->
    exists h',
      Store.add_all Store.add_disc self values h = Some h' /\
      Store.lists_of self h' =
        Some (d ++ Calls.params_of values, ax ++ Calls.axes_of values).
Proof.
  intros Hne Hall. induction Hall as [| [[[axis a] b] M] values Hb _ IH];
    intros h d ax Hl.
  - exists h. cbn. rewrite !app_nil_r. split; [reflexivity | exact Hl].
  - cbn in Hb. cbn [Store.add_all]. unfold Store.add_disc at 1.
    rewrite Hl. cbn [mbind option_bind].
    rewrite mnn_add_disc_accepts by exact Hb.
    cbn [ret after MNn.discs MNn.axes].
    destruct (IH _ _ _ (lists_of_update self (d ++ [a; b; M]) (ax ++ [axis])
                                        h Hne)) as (h' & Hadd & Hl').
    exists h'. split; [exact Hadd |].
    rewrite Hl', params_of_cons, <- !app_assoc. reflexivity.
Qed.

Lemma store_add_model_all (self : Store.object)
    (values : list (string * R * R * R)) :
  Store.floats_at self <> Store.axes_at self ->
  forall (h : gmap Store.loc Store.pyobj) (d : list R) (ax : list string),
    Store.lists_of self h = Some (d, ax) ->
    exists h',
      Store.add_all Store.add_model self values h = Some h' /\
      Store.lists_of self h' =
        Some (d ++ Calls.params_of values, ax ++ Calls.axes_of values).
Proof.
  intros Hne. induction values as [| [[[axis a] b] M] values IH];
    intros h d ax Hl.
  - exists h. cbn. rewrite !app_nil_r. split; [reflexivity | exact Hl].
  - cbn [Store.add_all]. unfold Store.add_model at 1.
    rewrite Hl. cbn [mbind option_bind MMN.add_model ret after MMN.models
                     MMN.axes].
    destruct (IH _ _ _ (lists_of_update self (d ++ [a; b; M]) (ax ++ [axis])
                                        h Hne)) as (h' & Hadd & Hl').
    exists h'. split; [exact Hadd |].
    rewrite Hl', params_of_cons, <- !app_assoc. reflexivity.
Qed.

(** What [push_rows] leaves: the result list holds the addresses of the
    rows pushed so far, each address leads to its row, the new addresses
    were unused, and every other object of the store is as it was. *)
Lemma push_rows_spec (res : Store.loc) (rows : list (string * list R)) :
  forall (h : gmap Store.loc Store.pyobj) (ls : list Store.loc)
         (done : list (string * list R)),
    h !! res = Some (Store.Refs ls) ->
    Forall2 (fun l r => h !! l = Some (Store.Row r)) ls done ->
    exists ls',
      Store.push_rows rows res h !! res = Some (Store.Refs (ls ++ ls')) /\
      Forall2 (fun l r => Store.push_rows rows res h !! l = Some (Store.Row r))
              (ls ++ ls') (done ++ rows) /\
      Forall (fun l => h !! l = None) ls' /\
      (forall l, is_Some (h !! l) -> l <> res ->
                 Store.push_rows rows res h !! l = h !! l).
Proof.
  induction rows as [| row rows IH]; intros h ls done Hres Hrows.
  - exists []. rewrite !app_nil_r. cbn. auto.
  - cbn [Store.push_rows].
    set (l := fresh (dom h)).
    set (h1 := alter (Store.push_ref l) res (<[l := Store.Row row]> h)).
    assert (Hl : h !! l = None) by apply fresh_lookup.
    assert (Hlres : l <> res) by congruence.
    assert (Hres1 : h1 !! res = Some (Store.Refs (ls ++ [l]))).
    { unfold h1. rewrite lookup_alter_eq, lookup_insert_ne, Hres by exact Hlres.
      reflexivity. }
    assert (Hkeep : forall l', l' <> res -> l' <> l -> h1 !! l' = h !! l').
    { intros l' H1 H2. unfold h1.
      rewrite lookup_alter_ne, lookup_insert_ne by congruence. reflexivity. }
    assert (Hrows1 : Forall2 (fun l0 r => h1 !! l0 = Some (Store.Row r))
                             (ls ++ [l]) (done ++ [row])).
    { apply Forall2_app.
      - eapply Forall2_impl; [exact Hrows |]. intros l' r Hr. lazy beta in Hr.
        rewrite Hkeep; [exact Hr | congruence | congruence].
      - constructor; [| constructor]. unfold h1.
        rewrite lookup_alter_ne, lookup_insert_eq by congruence. reflexivity. }
    destruct (IH h1 (ls ++ [l]) (done ++ [row]) Hres1 Hrows1)
      as (ls' & Hr & Hf & Hnew & Hold).
    exists (l :: ls').
    replace (ls ++ l :: ls') with ((ls ++ [l]) ++ ls')
      by (rewrite <- app_assoc; reflexivity).
    replace (done ++ row :: rows) with ((done ++ [row]) ++ rows)
      by (rewrite <- app_assoc; reflexivity).
    split; [exact Hr |]. split; [exact Hf |]. split.
    + constructor; [exact Hl |].
      eapply Forall_impl; [exact Hnew |]. intros l' Hl'. lazy beta in Hl'.
      destruct (decide (l' = res)) as [-> | Hne]; [congruence |].
      destruct (decide (l' = l)) as [-> | Hne']; [exact Hl |].
      rewrite <- (Hkeep l') by assumption. exact Hl'.
    + intros l' Hsome Hne.
      assert (l' <> l) by (intros ->; rewrite Hl in Hsome; destruct Hsome; discriminate).
      rewrite Hold.
      * apply Hkeep; assumption.
      * rewrite Hkeep by assumption. exact Hsome.
      * exact Hne.
Qed.

(** [get_model]: the tuples of the model at a new address. *)
Lemma store_get_model (self : Store.object) (h : gmap Store.loc Store.pyobj)
    (d : list R) (ax : list string) :
  Store.lists_of self h = Some (d, ax) ->
  exists res h',
    Store.get_model self h = Some (res, h') /\
    Store.contents h' res =
      Some (MNn.get_model (MNn.Model d ax (Store.diz self))) /\
    Forall (fun l => h !! l = None) (Store.reachable h' res) /\
    (forall l, is_Some (h !! l) -> h' !! l = h !! l).
Proof.
  intros Hl. unfold Store.get_model. rewrite Hl. cbn [mbind option_bind].
  set (res := fresh (dom h)).
  assert (Hres : h !! res = None) by apply fresh_lookup.
  eexists _, _. split; [reflexivity |].
  unfold Store.contents, Store.reachable. rewrite lookup_insert_eq.
  split; [reflexivity |]. split.
  - constructor; [exact Hres | constructor].
  - intros l Hsome. apply lookup_insert_ne. intros <-.
    rewrite Hres in Hsome. destruct Hsome; discriminate.
Qed.

(** [get_models]: the rows of the model, each at a new address, listed at
    a new address. *)
Lemma store_get_models (self : Store.object) (h : gmap Store.loc Store.pyobj)
    (d : list R) (ax : list string) :
  Store.lists_of self h = Some (d, ax) ->
  exists res h',
    Store.get_models self h = Some (res, h') /\
    Store.contents h' res =
      Some (MMN.get_models (MMN.Model d ax (Store.diz self))) /\
    Forall (fun l => h !! l = None) (Store.reachable h' res) /\
    (forall l, is_Some (h !! l) -> h' !! l = h !! l).
Proof.
  intros Hl. unfold Store.get_models. rewrite Hl. cbn [mbind option_bind].
  set (res := fresh (dom h)).
  set (rows := MMN.get_models (MMN.Model d ax (Store.diz self))).
  assert (Hres : h !! res = None) by apply fresh_lookup.
  destruct (push_rows_spec res rows (<[res := Store.Refs []]> h) [] [])
    as (ls & Hr & Hrows & Hnew & Hold).
  { apply lookup_insert_eq. }
  { constructor. }
  cbn [app] in Hr, Hrows.
  eexists _, _. split; [reflexivity |].
  unfold Store.contents, Store.reachable. rewrite Hr. split; [| split].
  - apply mapM_Some_2. eapply Forall2_impl; [exact Hrows |].
    intros l r Hlr. unfold Store.row_at. lazy beta in Hlr. rewrite Hlr. reflexivity.
  - constructor; [exact Hres |].
    eapply Forall_impl; [exact Hnew |]. intros l Hnone. lazy beta in Hnone.
    destruct (decide (l = res)) as [-> | Hne]; [exact Hres |].
    rewrite lookup_insert_ne in Hnone by congruence. exact Hnone.
  - intros l Hsome.
    assert (Hne : l <> res)
      by (intros ->; rewrite Hres in Hsome; destruct Hsome; discriminate).
    transitivity (<[res := Store.Refs []]> h !! l).
    + apply Hold; [| exact Hne].
      rewrite lookup_insert_ne by congruence. exact Hsome.
    + apply lookup_insert_ne. congruence.
Qed.

(** C8: on a model created in any store and filled by a sequence of
    successful additions, the accessor returns a list at an address that
    was not in use, whose contents are the added [(axis, a, b, M)] in the
    order of insertion; the model's own lists hold the same discs, and
    they are as before the call after any object whatever is written at
    an address of the returned list (the list itself, or one of its rows
    in [MMNModel]). *)
Theorem snapshot_is_a_copy (dz : R) (h0 : gmap Store.loc Store.pyobj)
    (values : list (string * R * R * R)) :
  let self := (Store.new_object dz h0).1 in
  let h1 := (Store.new_object dz h0).2 in
  (Forall (fun v : string * R * R * R => 0 <= v.1.2) values ->
   exists h2 res h3,
     Store.add_all Store.add_disc self values h1 = Some h2 /\
     Store.get_model self h2 = Some (res, h3) /\
     Store.contents h3 res = Some (Calls.tuples_of values) /\
     Store.lists_of self h2 =
       Some (Calls.params_of values, Calls.axes_of values) /\
     Forall (fun l => h2 !! l = None) (Store.reachable h3 res) /\
     (forall l o, l ∈ Store.reachable h3 res ->
                  Store.lists_of self (<[l := o]> h3) =
                  Store.lists_of self h2)) /\
  (exists h2 res h3,
     Store.add_all Store.add_model self values h1 = Some h2 /\
     Store.get_models self h2 = Some (res, h3) /\
     Store.contents h3 res = Some (Calls.tuples_of values) /\
     Store.lists_of self h2 =
       Some (Calls.params_of values, Calls.axes_of values) /\
     Forall (fun l => h2 !! l = None) (Store.reachable h3 res) /\
     (forall l o, l ∈ Store.reachable h3 res ->
                  Store.lists_of self (<[l := o]> h3) =
                  Store.lists_of self h2)).
Proof.
  intros self h1.
  destruct (new_object_lists dz h0) as [Hne Hnew]. fold self h1 in Hne, Hnew.
  split.
  - intros Hall.
    destruct (store_add_disc_all self values Hne Hall h1 [] [] Hnew)
      as (h2 & Hadd & Hl2).
    cbn [app] in Hl2.
    destruct (store_get_model self h2 _ _ Hl2)
      as (res & h3 & Hget & Hc & Hfresh & Hold).
    exists h2, res, h3. rewrite mnn_get_model_of_values in Hc.
    repeat (split; [assumption |]).
    intros l o Hin. rewrite Hl2.
    eapply lists_of_insert_fresh; [exact Hl2 | | exact Hold].
    rewrite Forall_forall in Hfresh. apply Hfresh, Hin.
  - destruct (store_add_model_all self values Hne h1 [] [] Hnew)
      as (h2 & Hadd & Hl2).
    cbn [app] in Hl2.
    destruct (store_get_models self h2 _ _ Hl2)
      as (res & h3 & Hget & Hc & Hfresh & Hold).
    exists h2, res, h3. rewrite mmn_get_models_of_values in Hc.
    repeat (split; [assumption |]).
    intros l o Hin. rewrite Hl2.
    eapply lists_of_insert_fresh; [exact Hl2 | | exact Hold].
    rewrite Forall_forall in Hfresh. apply Hfresh, Hin.
Qed.

(** C8 on the two discs [("z", 1, 0.1, 50)] and [("x", 1, 0.5, 10)], added
    to a model created in the empty store. *)
Lemma snapshot_is_a_copy_witness :
  Forall (fun v : string * R * R * R => 0 <= v.1.2)
         [("z", 1, 1 / 10, 50); ("x", 1, 1 / 2, 10)] /\
  exists h2 res h3,
    Store.add_all Store.add_disc (Store.new_object 1 ∅).1
      [("z", 1, 1 / 10, 50); ("x", 1, 1 / 2, 10)] (Store.new_object 1 ∅).2 =
      Some h2 /\
    Store.get_model (Store.new_object 1 ∅).1 h2 = Some (res, h3) /\
    Store.contents h3 res =
      Some [("z", [1; 1 / 10; 50]); ("x", [1; 1 / 2; 10])].
Proof.
  assert (Hall : Forall (fun v : string * R * R * R => 0 <= v.1.2)
                        [("z", 1, 1 / 10, 50); ("x", 1, 1 / 2, 10)]).
  { repeat constructor; cbn; lra. }
  split; [exact Hall |].
  destruct (snapshot_is_a_copy 1 ∅ [("z", 1, 1 / 10, 50); ("x", 1, 1 / 2, 10)])
    as [Hmnn _].
  destruct (Hmnn Hall) as (h2 & res & h3 & Hadd & Hget & Hc & _).
  exists h2, res, h3. repeat split; assumption.
Defined.

(** * Further properties of the models and of the fitter *)

(** ** Models of any number of discs *)

Lemma params_of_app (u v : list (string * R * R * R)) :
  Calls.params_of (u ++ v) = Calls.params_of u ++ Calls.params_of v.
Proof. unfold Calls.params_of. apply bind_app. Qed.

Lemma axes_of_app (u v : list (string * R * R * R)) :
  Calls.axes_of (u ++ v) = Calls.axes_of u ++ Calls.axes_of v.
Proof. unfold Calls.axes_of. apply fmap_app. Qed.

Lemma params_of_length (values : list (string * R * R * R)) :
  length (Calls.params_of values) = (length values * 3)%nat.
Proof.
  induction values as [| [[[axis a] b] M] values IH]; [reflexivity |].
  rewrite params_of_cons, length_app, IH. cbn. lia.
Qed.

Lemma axes_of_length (values : list (string * R * R * R)) :
  length (Calls.axes_of values) = length values.
Proof. unfold Calls.axes_of. apply length_fmap. Qed.

(** The [k]-th disc, read back from the flat list and from the axes. *)
Lemma params_of_lookup (values : list (string * R * R * R)) (k : nat)
    (axis : string) (a b M : R) :
  values !! k = Some (axis, a, b, M) ->
  slice (Calls.params_of values) (k * 3) ((k + 1) * 3) = [a; b; M] /\
  Calls.axes_of values !! k = Some axis.
Proof.
  intros Hk. split.
  - rewrite <- (take_drop_middle values k _ Hk), params_of_app, params_of_cons.
    apply slice_app_triple. rewrite params_of_length, length_take.
    apply lookup_lt_Some in Hk. lia.
  - unfold Calls.axes_of. rewrite list_lookup_fmap, Hk. reflexivity.
Qed.

Lemma total_app (u v : list R) :
  Sums.total (u ++ v) = Sums.total u + Sums.total v.
Proof.
  unfold Sums.total. induction u as [| t u IH]; cbn; [lra | rewrite IH; lra].
Qed.

Lemma vadd_assoc (u v w : vec3) : vadd (vadd u v) w = vadd u (vadd v w).
Proof.
  destruct u as [[u1 u2] u3], v as [[v1 v2] v3], w as [[w1 w2] w3]. cbn.
  rewrite !Rplus_assoc. reflexivity.
Qed.

Lemma vadd_zero_r (u : vec3) : vadd u (0, 0, 0) = u.
Proof. destruct u as [[u1 u2] u3]. cbn. rewrite !Rplus_0_r. reflexivity. Qed.

(** The loop of [MNnModel._evaluate_scalar_quantity] from disc [k] on. *)
Lemma mnn_scalar_loop_sum (cb : R -> R -> R -> R -> R -> R) (x y z dz : R)
    (axs : list string) (values : list (string * R * R * R)) :
  forall (pre : list R) (k : nat) (total_sum : R),
    length pre = (k * 3)%nat ->
    MNn.scalar_loop cb x y z
      (MNn.Model (pre ++ Calls.params_of values) axs dz)
      (Calls.axes_of values) k total_sum =
    Ok (total_sum + Sums.total (Sums.scalar_of cb x y z <$> values)).
Proof.
  induction values as [| [[[axis a] b] M] values IH];
    intros pre k total_sum Hk.
  - unfold Sums.total. cbn. f_equal. lra.
  - change (Calls.axes_of ((axis, a, b, M) :: values))
      with (axis :: Calls.axes_of values).
    rewrite params_of_cons. cbn [MNn.scalar_loop MNn.discs app].
    rewrite slice_app_triple by exact Hk. cbn [unpack3 mbind result_bind].
    replace (pre ++ a :: b :: M :: Calls.params_of values)
      with ((pre ++ [a; b; M]) ++ Calls.params_of values)
      by (rewrite <- app_assoc; reflexivity).
    replace (k + 1)%nat with (S k) by lia.
    rewrite IH by (rewrite length_app, Hk; cbn; lia).
    f_equal. cbn. unfold Sums.total. lra.
Qed.

Lemma mnn_force_loop_sum (x y z dz : R) (axs : list string)
    (values : list (string * R * R * R)) :
  forall (pre : list R) (k : nat) (total_sum : vec3),
    length pre = (k * 3)%nat ->
    MNn.force_loop x y z
      (MNn.Model (pre ++ Calls.params_of values) axs dz)
      (Calls.axes_of values) k total_sum =
    Ok (vadd total_sum (Sums.vtotal (Sums.force_of x y z <$> values))).
Proof.
  induction values as [| [[[axis a] b] M] values IH];
    intros pre k total_sum Hk.
  - cbn. rewrite vadd_zero_r. reflexivity.
  - change (Calls.axes_of ((axis, a, b, M) :: values))
      with (axis :: Calls.axes_of values).
    rewrite params_of_cons. cbn [MNn.force_loop MNn.discs app].
    rewrite slice_app_triple by exact Hk. cbn [unpack3 mbind result_bind].
    replace (pre ++ a :: b :: M :: Calls.params_of values)
      with ((pre ++ [a; b; M]) ++ Calls.params_of values)
      by (rewrite <- app_assoc; reflexivity).
    replace (k + 1)%nat with (S k) by lia.
    rewrite IH by (rewrite length_app, Hk; cbn; lia).
    f_equal. cbn [fmap list_fmap Sums.vtotal foldr Sums.force_of].
    apply vadd_assoc.
Qed.

Lemma mnn_scalar_quantity_sum (cb : R -> R -> R -> R -> R -> R)
    (values : list (string * R * R * R)) (dz x y z : R) :
  MNn._evaluate_scalar_quantity
    (MNn.Model (Calls.params_of values) (Calls.axes_of values) dz) x y z cb =
  match values with
  | [] => Raise ValueError
  | _ => Ok (Sums.total (Sums.scalar_of cb x y z <$> values))
  end.
Proof.
  destruct values as [| [[[axis a] b] M] values]; [reflexivity |].
  unfold MNn._evaluate_scalar_quantity.
  change (Calls.axes_of ((axis, a, b, M) :: values))
    with (axis :: Calls.axes_of values).
  rewrite params_of_cons.
  cbn [MNn.discs MNn.axes app slice take drop Nat.sub head_item].
  rewrite take_0, drop_0. cbn [unpack3 mbind result_bind].
  change (a :: b :: M :: Calls.params_of values)
    with ([a; b; M] ++ Calls.params_of values).
  rewrite mnn_scalar_loop_sum by reflexivity. reflexivity.
Qed.

Lemma mnn_force_sum (values : list (string * R * R * R)) (dz x y z : R) :
  MNn.evaluate_force
    (MNn.Model (Calls.params_of values) (Calls.axes_of values) dz) x y z =
  match values with
  | [] => Raise ValueError
  | _ => Ok (Sums.vtotal (Sums.force_of x y z <$> values))
  end.
Proof.
  destruct values as [| [[[axis a] b] M] values]; [reflexivity |].
  unfold MNn.evaluate_force.
  change (Calls.axes_of ((axis, a, b, M) :: values))
    with (axis :: Calls.axes_of values).
  rewrite params_of_cons.
  cbn [MNn.discs MNn.axes app slice take drop Nat.sub head_item].
  rewrite take_0, drop_0. cbn [unpack3 mbind result_bind].
  change (a :: b :: M :: Calls.params_of values)
    with ([a; b; M] ++ Calls.params_of values).
  rewrite mnn_force_loop_sum by reflexivity. reflexivity.
Qed.

(** X1: on the model of any sequence of added discs,
    [MNnModel._evaluate_scalar_quantity] raises ValueError when there is
    no disc and otherwise returns the sum, over all the discs, of the
    quantity at each disc's own radius and height. *)
Theorem mnn_scalar_quantity_is_the_sum (cb : R -> R -> R -> R -> R -> R)
    (values : list (string * R * R * R)) (dz x y z : R) :
  MNn._evaluate_scalar_quantity
    (MNn.Model (Calls.params_of values) (Calls.axes_of values) dz) x y z cb =
  match values with
  | [] => Raise ValueError
  | _ => Ok (Sums.total (Sums.scalar_of cb x y z <$> values))
  end.
Proof.
  destruct values as [| [[[axis a] b] M] values]; [reflexivity |].
  unfold MNn._evaluate_scalar_quantity.
  change (Calls.axes_of ((axis, a, b, M) :: values))
    with (axis :: Calls.axes_of values).
  rewrite params_of_cons.
  cbn [MNn.discs MNn.axes app slice take drop Nat.sub head_item].
  rewrite take_0, drop_0. cbn [unpack3 mbind result_bind].
  change (a :: b :: M :: Calls.params_of values)
    with ([a; b; M] ++ Calls.params_of values).
  rewrite mnn_scalar_loop_sum by reflexivity. reflexivity.
Qed.

(** X2: the same for [MNnModel.evaluate_force], with the component-wise
    sum of the discs' Cartesian forces. *)
Theorem mnn_force_is_the_sum (values : list (string * R * R * R))
    (dz x y z : R) :
  MNn.evaluate_force
    (MNn.Model (Calls.params_of values) (Calls.axes_of values) dz) x y z =
  match values with
  | [] => Raise ValueError
  | _ => Ok (Sums.vtotal (Sums.force_of x y z <$> values))
  end.
Proof.
  destruct values as [| [[[axis a] b] M] values]; [reflexivity |].
  unfold MNn.evaluate_force.
  change (Calls.axes_of ((axis, a, b, M) :: values))
    with (axis :: Calls.axes_of values).
  rewrite params_of_cons.
  cbn [MNn.discs MNn.axes app slice take drop Nat.sub head_item].
  rewrite take_0, drop_0. cbn [unpack3 mbind result_bind].
  change (a :: b :: M :: Calls.params_of values)
    with ([a; b; M] ++ Calls.params_of values).
  rewrite mnn_force_loop_sum by reflexivity. reflexivity.
Qed.

(** The loop of [MMNModel._evaluate_quantity]: it runs once per entry of
    [rest] and reads the discs [k], [k+1], ... of the model. *)
Lemma mmn_quantity_loop_sum (cb : R -> R -> R -> R -> R -> R) (x y z dz : R)
    (values : list (string * R * R * R)) (rest : list string) :
  forall (k : nat) (total_sum : R),
    (k + length rest <= length values)%nat ->
    MMN.quantity_loop cb x y z
      (MMN.Model (Calls.params_of values) (Calls.axes_of values) dz)
      rest k total_sum =
    Ok (total_sum +
        Sums.total (Sums.scalar_of cb x y z <$>
                      take (length rest) (drop k values))).
Proof.
  induction rest as [| skipped rest IH]; intros k total_sum Hk.
  - cbn [length MMN.quantity_loop]. rewrite take_0. unfold Sums.total. cbn.
    f_equal. lra.
  - cbn [length] in Hk.
    destruct (lookup_lt_is_Some_2 values k ltac:(lia)) as [[[[axis a] b] M] Hv].
    destruct (params_of_lookup values k axis a b M Hv) as [Hsl Hax].
    cbn [MMN.quantity_loop MMN.models MMN.axes]. rewrite Hsl.
    cbn [unpack3 mbind result_bind]. unfold MMN.item. rewrite Hax.
    cbn [mbind result_bind].
    replace (k + 1)%nat with (S k) by lia.
    rewrite IH by lia. f_equal.
    rewrite (drop_S values (axis, a, b, M) k Hv).
    cbn [length take fmap list_fmap]. unfold Sums.total. cbn. lra.
Qed.

(** X3: on the model of any sequence of added discs,
    [MMNModel._evaluate_quantity] raises ValueError when there is no disc
    and otherwise returns the first disc's value plus the values of all
    the discs but the last: on two discs or more the last one is never
    read. *)
Theorem mmn_quantity_skips_last_disc (cb : R -> R -> R -> R -> R -> R)
    (values : list (string * R * R * R)) (dz x y z : R) :
  MMN._evaluate_quantity
    (MMN.Model (Calls.params_of values) (Calls.axes_of values) dz) x y z cb =
  match values with
  | [] => Raise ValueError
  | first :: others =>
    Ok (Sums.scalar_of cb x y z first +
        Sums.total (Sums.scalar_of cb x y z <$> take (length others) values))
  end.
Proof.
  destruct values as [| [[[axis a] b] M] others]; [reflexivity |].
  unfold MMN._evaluate_quantity.
  set (values := (axis, a, b, M) :: others).
  destruct (params_of_lookup values 0 axis a b M eq_refl) as [Hsl _].
  change (slice (Calls.params_of values) (0 * 3) ((0 + 1) * 3))
    with (slice (Calls.params_of values) 0 3) in Hsl.
  cbn [MMN.models MMN.axes]. rewrite Hsl.
  cbn [unpack3 mbind result_bind].
  change (Calls.axes_of values) with (axis :: Calls.axes_of others).
  cbn [head_item mbind result_bind drop]. rewrite drop_0.
  change (axis :: Calls.axes_of others) with (Calls.axes_of values).
  rewrite mmn_quantity_loop_sum
    by (rewrite axes_of_length; unfold values; cbn; lia).
  rewrite axes_of_length, drop_0. reflexivity.
Qed.

(** ** Symmetries of the scalar quantities *)

(** Two points at which every disc on an axis in [P] gets the same value
    give the same total. *)
Lemma mnn_scalar_loop_ext (cb : R -> R -> R -> R -> R -> R)
    (P : string -> Prop) (x y z x' y' z' : R) (self : MNn.model) :
  (forall ax a b M, P ax ->
     on_axis cb x y z ax a b M = on_axis cb x' y' z' ax a b M) ->
  forall (rest : list string) (k : nat) (total_sum : R),
    Forall P rest ->
    MNn.scalar_loop cb x y z self rest k total_sum =
    MNn.scalar_loop cb x' y' z' self rest k total_sum.
Proof.
  intros Hcb rest. induction rest as [| axis rest IH]; intros k t HP.
  - reflexivity.
  - inversion HP as [| ? ? Hax Hrest]; subst. cbn [MNn.scalar_loop].
    destruct (unpack3 _) as [[[a b] M] | e]; [| reflexivity].
    cbn [mbind result_bind]. rewrite (Hcb axis a b M Hax). apply IH, Hrest.
Qed.

Lemma mnn_scalar_quantity_ext (cb : R -> R -> R -> R -> R -> R)
    (P : string -> Prop) (x y z x' y' z' : R) (self : MNn.model) :
  (forall ax a b M, P ax ->
     on_axis cb x y z ax a b M = on_axis cb x' y' z' ax a b M) ->
  Forall P (MNn.axes self) ->
  MNn._evaluate_scalar_quantity self x y z cb =
  MNn._evaluate_scalar_quantity self x' y' z' cb.
Proof.
  intros Hcb HP. unfold MNn._evaluate_scalar_quantity.
  destruct (unpack3 _) as [[[a b] M] | e]; [| reflexivity].
  cbn [mbind result_bind].
  destruct (MNn.axes self) as [| axis rest]; [reflexivity |].
  inversion HP as [| ? ? Hax Hrest]; subst.
  cbn [head_item mbind result_bind drop]. rewrite drop_0.
  rewrite (Hcb axis a b M Hax).
  apply (mnn_scalar_loop_ext cb P); assumption.
Qed.

(** A quantity that is even in the height is unchanged when one
    coordinate of the point changes sign. *)
Lemma on_axis_even (cb : R -> R -> R -> R -> R -> R) :
  (forall r h a b M, cb r (- h) a b M = cb r h a b M) ->
  forall x y z ax a b M,
    on_axis cb (- x) y z ax a b M = on_axis cb x y z ax a b M /\
    on_axis cb x (- y) z ax a b M = on_axis cb x y z ax a b M /\
    on_axis cb x y (- z) ax a b M = on_axis cb x y z ax a b M.
Proof.
  intros Heven x y z ax a b M. unfold on_axis.
  replace ((- x) ^ 2) with (x ^ 2) by ring.
  replace ((- y) ^ 2) with (y ^ 2) by ring.
  replace ((- z) ^ 2) with (z ^ 2) by ring.
  destruct (String.eqb ax "x"); [| destruct (String.eqb ax "y")];
    rewrite ?Heven; auto.
Qed.

Lemma mnn_potential_even (r h a b M : R) :
  MNn.mn_potential r (- h) a b M = MNn.mn_potential r h a b M.
Proof.
  unfold MNn.mn_potential. replace ((- h) ^ 2) with (h ^ 2) by ring.
  reflexivity.
Qed.

Lemma mnn_density_even (r h a b M : R) :
  MNn.mn_density r (- h) a b M = MNn.mn_density r h a b M.
Proof.
  unfold MNn.mn_density. replace ((- h) ^ 2) with (h ^ 2) by ring.
  reflexivity.
Qed.

(** X4: for every model, with any discs on any axes, the potential and
    the density of [MNnModel] are unchanged when the sign of [x], of [y]
    or of [z] is flipped; this includes the case where both sides
    raise. *)
Theorem mnn_scalar_mirror_symmetry (self : MNn.model) (x y z : R) :
  (MNn.evaluate_potential self (- x) y z = MNn.evaluate_potential self x y z /\
   MNn.evaluate_potential self x (- y) z = MNn.evaluate_potential self x y z /\
   MNn.evaluate_potential self x y (- z) = MNn.evaluate_potential self x y z) /\
  (MNn.evaluate_density self (- x) y z = MNn.evaluate_density self x y z /\
   MNn.evaluate_density self x (- y) z = MNn.evaluate_density self x y z /\
   MNn.evaluate_density self x y (- z) = MNn.evaluate_density self x y z).
Proof.
  assert (Hall : Forall (fun _ : string => True) (MNn.axes self))
    by (apply Forall_forall; auto).
  unfold MNn.evaluate_potential, MNn.evaluate_density.
  repeat split;
    apply (mnn_scalar_quantity_ext _ (fun _ => True)); try exact Hall;
    intros ax a b M _;
    first [ apply (on_axis_even _ mnn_potential_even)
          | apply (on_axis_even _ mnn_density_even) ].
Qed.

Lemma on_axis_swap (cb : R -> R -> R -> R -> R -> R) (x y z : R)
    (ax : string) (a b M : R) :
  ax <> "x" /\ ax <> "y" ->
  on_axis cb y x z ax a b M = on_axis cb x y z ax a b M.
Proof.
  intros [Hx Hy]. unfold on_axis.
  apply String.eqb_neq in Hx, Hy. rewrite Hx, Hy.
  rewrite (Rplus_comm (y ^ 2)). reflexivity.
Qed.

(** X5: when no disc of the model is on the axis ["x"] or ["y"] (all lie
    in the [xy] plane, the axis ["z"]), any scalar quantity of
    [MNnModel] is unchanged when [x] and [y] are exchanged. *)
Theorem mnn_scalar_in_plane_symmetry (cb : R -> R -> R -> R -> R -> R)
    (self : MNn.model) (x y z : R) :
  Forall (fun ax : string => ax <> "x" /\ ax <> "y") (MNn.axes self) ->
  MNn._evaluate_scalar_quantity self y x z cb =
  MNn._evaluate_scalar_quantity self x y z cb.
Proof.
  intros HP.
  apply (mnn_scalar_quantity_ext cb (fun ax => ax <> "x" /\ ax <> "y"));
    [| exact HP].
  intros ax a b M Hax. apply on_axis_swap, Hax.
Qed.

(** X5 on the two discs [("z", 1, 0.1, 50)] and [("z", 2, 0.5, 10)] at the
    points [(3, 4, 5)] and [(4, 3, 5)]. *)
Lemma mnn_scalar_in_plane_symmetry_witness :
  MNn._evaluate_scalar_quantity
    (MNn.Model [1; 1 / 10; 50; 2; 1 / 2; 10] ["z"; "z"] 1) 4 3 5
    MNn.mn_potential =
  MNn._evaluate_scalar_quantity
    (MNn.Model [1; 1 / 10; 50; 2; 1 / 2; 10] ["z"; "z"] 1) 3 4 5
    MNn.mn_potential.
Proof.
  apply mnn_scalar_in_plane_symmetry.
  repeat constructor; discriminate.
Defined.

(** ** Signs and bounds for ordinary discs *)

Lemma sqrt_sum_sq_pos (z b : R) : b <> 0 -> 0 < sqrt (z ^ 2 + b ^ 2).
Proof.
  intros Hb. apply sqrt_lt_R0.
  pose proof (pow2_ge_0 z). pose proof (pow2_ge_0 b).
  pose proof (pow_nonzero b 2 Hb). lra.
Qed.

Lemma pow25_pos (u : R) : 0 < u -> 0 < pow25 u.
Proof.
  intros Hu. unfold pow25. apply Rmult_lt_0_compat.
  - apply pow_lt, Hu.
  - apply sqrt_lt_R0, Hu.
Qed.

(** The density of one disc with [a >= 0], [b <> 0] and [M >= 0] is
    nowhere negative. *)
Lemma mnn_density_nonneg (r z a b M : R) :
  0 <= a -> b <> 0 -> 0 <= M -> 0 <= MNn.mn_density r z a b M.
Proof.
  intros Ha Hb HM. unfold MNn.mn_density. cbv zeta.
  pose proof (sqrt_sum_sq_pos z b Hb) as Hh.
  set (h := sqrt (z ^ 2 + b ^ 2)) in *.
  assert (Hden : 0 < h ^ 3 * pow25 (r ^ 2 + (a + h) ^ 2)).
  { apply Rmult_lt_0_compat; [apply pow_lt, Hh |].
    apply pow25_pos. pose proof (pow2_ge_0 r).
    assert (0 < (a + h) ^ 2) by (apply pow_lt; lra). lra. }
  apply Rmult_le_pos; [| left; apply Rinv_0_lt_compat, Hden].
  apply Rmult_le_pos.
  - apply Rmult_le_pos; [| left; apply Rinv_0_lt_compat;
                           pose proof PI_RGT_0; lra].
    apply Rmult_le_pos; [apply pow2_ge_0 | exact HM].
  - apply Rplus_le_le_0_compat.
    + apply Rmult_le_pos; [exact Ha | apply pow2_ge_0].
    + apply Rmult_le_pos; [lra | apply pow2_ge_0].
Qed.

Lemma total_nonneg (terms : list R) :
  Forall (fun t => 0 <= t) terms -> 0 <= Sums.total terms.
Proof.
  unfold Sums.total. induction 1 as [| t terms Ht _ IH]; cbn; lra.
Qed.

Lemma total_le (f g : string * R * R * R -> R)
    (values : list (string * R * R * R)) :
  Forall (fun v => f v <= g v) values ->
  Sums.total (f <$> values) <= Sums.total (g <$> values).
Proof.
  unfold Sums.total. induction 1 as [| v values Hv _ IH]; cbn; lra.
Qed.

Lemma on_axis_cases (cb : R -> R -> R -> R -> R -> R) (x y z : R)
    (ax : string) (a b M : R) :
  exists r h, on_axis cb x y z ax a b M = cb r h a b M.
Proof.
  unfold on_axis.
  destruct (String.eqb ax "x"); [| destruct (String.eqb ax "y")]; eauto.
Qed.


(** X6: a model with at least one disc, all of whose discs have
    [a >= 0], [b <> 0] and [M >= 0], has a density that
    [MNnModel.evaluate_density] returns, and that is not negative, at
    every point. *)
Theorem mnn_density_of_ordinary_discs_nonneg
    (values : list (string * R * R * R)) (dz x y z : R) :
  values <> [] ->
  Forall Sums.ordinary_disc values ->
  exists d,
    MNn.evaluate_density
      (MNn.Model (Calls.params_of values) (Calls.axes_of values) dz) x y z =
      Ok d /\
    0 <= d.
Proof.
  intros Hne Hall. unfold MNn.evaluate_density.
  rewrite mnn_scalar_quantity_sum.
  destruct values as [| v values]; [contradiction |].
  eexists. split; [reflexivity |].
  apply total_nonneg, Forall_fmap.
  eapply Forall_impl; [exact Hall |].
  intros [[[ax a] b] M] (Ha & Hb & HM). cbn in Ha, Hb, HM. cbn.
  destruct (on_axis_cases MNn.mn_density x y z ax a b M) as (r & h & ->).
  apply mnn_density_nonneg; assumption.
Qed.

(** X6 on the two discs [("z", 1, 0.1, 50)] and [("x", 1, 0.5, 10)]. *)
Lemma mnn_density_of_ordinary_discs_nonneg_witness :
  exists d,
    MNn.evaluate_density
      (MNn.Model [1; 1 / 10; 50; 1; 1 / 2; 10] ["z"; "x"] 1) 3 4 5 = Ok d /\
    0 <= d.
Proof.
  apply (mnn_density_of_ordinary_discs_nonneg
           [("z", 1, 1 / 10, 50); ("x", 1, 1 / 2, 10)] 1 3 4 5).
  - discriminate.
  - repeat constructor; cbn; lra.
Defined.

(** The potential of one disc at the centre, and between the centre and
    infinity. *)
Lemma mnn_potential_centre (a b M : R) :
  0 <= a ->
  MNn.mn_potential 0 0 a b M = - G * M / (a + Rabs b).
Proof.
  intros Ha. rewrite mnn_potential_formula.
  replace (0 ^ 2 + b ^ 2) with (b ^ 2) by ring. rewrite sqrt_sq_abs.
  replace (0 ^ 2 + (a + Rabs b) ^ 2) with ((a + Rabs b) ^ 2) by ring.
  rewrite sqrt_sq_nonneg by (pose proof (Rabs_pos b); lra). reflexivity.
Qed.

Lemma mnn_potential_bounds (r z a b M : R) :
  0 <= a -> b <> 0 -> 0 <= M ->
  MNn.mn_potential 0 0 a b M <= MNn.mn_potential r z a b M <= 0.
Proof.
  intros Ha Hb HM. rewrite mnn_potential_centre by exact Ha.
  rewrite mnn_potential_formula.
  pose proof (Rabs_pos_lt b Hb) as Hb0.
  set (h := sqrt (z ^ 2 + b ^ 2)).
  assert (Hh : Rabs b <= h).
  { unfold h. rewrite <- sqrt_sq_abs. apply sqrt_le_1_alt.
    pose proof (pow2_ge_0 z). lra. }
  set (D := sqrt (r ^ 2 + (a + h) ^ 2)).
  assert (HD : a + Rabs b <= D).
  { unfold D. rewrite <- (sqrt_sq_nonneg (a + Rabs b)) at 1 by lra.
    apply sqrt_le_1_alt. pose proof (pow2_ge_0 r).
    assert ((a + Rabs b) ^ 2 <= (a + h) ^ 2) by (apply pow_incr; lra). lra. }
  assert (Hinv : / D <= / (a + Rabs b))
    by (apply Rinv_le_contravar; lra).
  assert (HD0 : 0 < / D) by (apply Rinv_0_lt_compat; lra).
  pose proof G_pos as HG.
  assert (HGM : 0 <= G * M) by (apply Rmult_le_pos; lra).
  assert (H1 : G * M * / D <= G * M * / (a + Rabs b))
    by (apply Rmult_le_compat_l; assumption).
  assert (H2 : 0 <= G * M * / D) by (apply Rmult_le_pos; lra).
  unfold Rdiv. split; lra.
Qed.

(** X7: for a model with at least one disc, all of whose discs have
    [a >= 0], [b <> 0] and [M >= 0], the potential that
    [MNnModel.evaluate_potential] returns at any point is at most 0 and
    at least the potential at the origin: the well is deepest at the
    centre. *)
Theorem mnn_potential_deepest_at_centre
    (values : list (string * R * R * R)) (dz x y z : R) :
  values <> [] ->
  Forall Sums.ordinary_disc values ->
  exists p p0,
    MNn.evaluate_potential
      (MNn.Model (Calls.params_of values) (Calls.axes_of values) dz) x y z =
      Ok p /\
    MNn.evaluate_potential
      (MNn.Model (Calls.params_of values) (Calls.axes_of values) dz) 0 0 0 =
      Ok p0 /\
    p0 <= p <= 0.
Proof.
  intros Hne Hall. unfold MNn.evaluate_potential.
  rewrite !mnn_scalar_quantity_sum.
  destruct values as [| v values]; [contradiction |].
  eexists _, _. split; [reflexivity |]. split; [reflexivity |].
  assert (Hdisc : forall v, Sums.ordinary_disc v ->
            Sums.scalar_of MNn.mn_potential 0 0 0 v <=
              Sums.scalar_of MNn.mn_potential x y z v <= 0).
  { intros [[[ax a] b] M] (Ha & Hb & HM). cbn in Ha, Hb, HM. cbn.
    destruct (on_axis_cases MNn.mn_potential x y z ax a b M) as (r & h & ->).
    replace (on_axis MNn.mn_potential 0 0 0 ax a b M)
      with (MNn.mn_potential 0 0 a b M).
    - apply mnn_potential_bounds; assumption.
    - unfold on_axis. replace (0 ^ 2 + 0 ^ 2) with (0 ^ 2) by ring.
      rewrite sqrt_sq_nonneg by lra.
      destruct (String.eqb ax "x"); [| destruct (String.eqb ax "y")];
        reflexivity. }
  split.
  - apply total_le. eapply Forall_impl; [exact Hall |].
    intros v0 Hv0. apply Hdisc, Hv0.
  - assert (Hneg : 0 <= Sums.total
                     ((fun v => - Sums.scalar_of MNn.mn_potential x y z v)
                        <$> v :: values)).
    { apply total_nonneg, Forall_fmap. eapply Forall_impl; [exact Hall |].
      intros v0 Hv0. cbn. pose proof (Hdisc v0 Hv0). lra. }
    assert (Hopp : forall l : list (string * R * R * R),
              Sums.total ((fun v => - Sums.scalar_of MNn.mn_potential x y z v)
                            <$> l) =
              - Sums.total (Sums.scalar_of MNn.mn_potential x y z <$> l)).
    { unfold Sums.total. induction l as [| v0 l IH]; cbn; [lra |].
      rewrite IH. lra. }
    rewrite Hopp in Hneg. lra.
Qed.

(** X7 on the two discs [("z", 1, 0.1, 50)] and [("x", 1, 0.5, 10)]. *)
Lemma mnn_potential_deepest_at_centre_witness :
  exists p p0,
    MNn.evaluate_potential
      (MNn.Model [1; 1 / 10; 50; 1; 1 / 2; 10] ["z"; "x"] 1) 3 4 5 = Ok p /\
    MNn.evaluate_potential
      (MNn.Model [1; 1 / 10; 50; 1; 1 / 2; 10] ["z"; "x"] 1) 0 0 0 = Ok p0 /\
    p0 <= p <= 0.
Proof.
  apply (mnn_potential_deepest_at_centre
           [("z", 1, 1 / 10, 50); ("x", 1, 1 / 2, 10)] 1 3 4 5).
  - discriminate.
  - repeat constructor; cbn; lra.
Defined.

(** ** The force *)

Lemma vscale_vadd (c : R) (u v : vec3) :
  vadd (vscale c u) (vscale c v) = vscale c (vadd u v).
Proof.
  destruct u as [[u1 u2] u3], v as [[v1 v2] v3]. cbn.
  rewrite !Rmult_plus_distr_l. reflexivity.
Qed.

Lemma vec3_eq (u1 u2 u3 v1 v2 v3 : R) :
  u1 = v1 -> u2 = v2 -> u3 = v3 -> (u1, u2, u3) = (v1, v2, v3).
Proof. intros -> -> ->. reflexivity. Qed.

(** One disc pulls with opposite forces at opposite points. *)
Lemma disc_force_odd (x y z : R) (ax : string) (a b M : R) :
  MNn.disc_force (- x) (- y) (- z) ax a b M =
  vscale (-1) (MNn.disc_force x y z ax a b M).
Proof.
  unfold MNn.disc_force, MNn.get_tangent_coordinates, MNn.mn_force.
  destruct (String.eqb ax "x"); [| destruct (String.eqb ax "y")];
    cbv zeta; cbn [vscale];
    replace ((- x) ^ 2) with (x ^ 2) by ring;
    replace ((- y) ^ 2) with (y ^ 2) by ring;
    replace ((- z) ^ 2) with (z ^ 2) by ring;
    apply vec3_eq; unfold Rdiv; ring.
Qed.

Lemma force_loop_odd (x y z : R) (self : MNn.model) (rest : list string) :
  forall (k : nat) (total_sum : vec3),
    MNn.force_loop (- x) (- y) (- z) self rest k (vscale (-1) total_sum) =
    match MNn.force_loop x y z self rest k total_sum with
    | Ok f => Ok (vscale (-1) f)
    | Raise e => Raise e
    end.
Proof.
  induction rest as [| axis rest IH]; intros k t.
  - reflexivity.
  - cbn [MNn.force_loop].
    destruct (unpack3 _) as [[[a b] M] | e]; [| reflexivity].
    cbn [mbind result_bind].
    rewrite disc_force_odd, vscale_vadd. apply IH.
Qed.

(** X8: for every model, the force [MNnModel.evaluate_force] returns at
    the point [(-x, -y, -z)] is the opposite of the force at [(x, y, z)],
    and it raises there exactly when it raises here. *)
Theorem mnn_force_point_symmetry (self : MNn.model) (x y z : R) :
  MNn.evaluate_force self (- x) (- y) (- z) =
  match MNn.evaluate_force self x y z with
  | Ok f => Ok (vscale (-1) f)
  | Raise e => Raise e
  end.
Proof.
  unfold MNn.evaluate_force.
  destruct (unpack3 _) as [[[a b] M] | e]; [| reflexivity].
  cbn [mbind result_bind].
  destruct (head_item _) as [axis | e]; [| reflexivity].
  cbn [mbind result_bind].
  rewrite disc_force_odd. apply force_loop_odd.
Qed.

(** The force of a disc on the axis ["x"] or ["y"] is the force of
    the same disc laid on the axis ["z"], taken at the point whose
    coordinates are rotated accordingly, with its components rotated
    back: the normal component always lands in the disc's own axis. *)
Lemma disc_force_axis_rotation (x y z a b M : R) :
  MNn.disc_force x y z "x" a b M =
    (let '(f1, f2, f3) := MNn.disc_force y z x "z" a b M in (f3, f1, f2)) /\
  MNn.disc_force x y z "y" a b M =
    (let '(f1, f2, f3) := MNn.disc_force x z y "z" a b M in (f1, f3, f2)).
Proof. split; reflexivity. Qed.

(** *** The two variants *)

Lemma sqrt_scale (c u : R) : 0 <= c -> sqrt (c ^ 2 * u) = c * sqrt u.
Proof.
  intros Hc. rewrite sqrt_mult_alt by apply pow2_ge_0.
  rewrite sqrt_sq_nonneg by exact Hc. reflexivity.
Qed.

Lemma pow15_scale (c u : R) :
  0 <= c -> pow15 (c ^ 2 * u) = c ^ 3 * pow15 u.
Proof. intros Hc. unfold pow15. rewrite sqrt_scale by exact Hc. ring. Qed.

(** X9: away from the singular point ([b <> 0] and [a + |b| > 0]), the
    radial and the vertical force of [MMNModel], which are computed on
    lengths multiplied by [kpc = 1000], are the force of [MNnModel] for
    the amplitude [|M|] at the point [(r, 0, z)] of a disc on the axis
    ["z"], divided by [10^6]. *)
Theorem mmn_force_is_mnn_force_rescaled (r z a b M : R) :
  b <> 0 -> 0 < a + Rabs b ->
  MNn.mn_force r 0 z a b (Rabs M) "z" =
  (10 ^ 6 * MMN.mn_forceR r z a b M, 0, 10 ^ 6 * MMN.mn_forceV r z a b M).
Proof.
  intros Hb Hab.
  pose proof (sqrt_sum_sq_pos z b Hb) as Hh.
  assert (Hhb : Rabs b <= sqrt (z ^ 2 + b ^ 2)).
  { rewrite <- sqrt_sq_abs. apply sqrt_le_1_alt.
    pose proof (pow2_ge_0 z). lra. }
  unfold MNn.mn_force, MMN.mn_forceR, MMN.mn_forceV, G.
  cbn [String.eqb Ascii.eqb Bool.eqb]. cbv zeta. cbn [vscale].
  rewrite sqrt_sq_abs.
  replace (sqrt (b ^ 2 + z ^ 2)) with (sqrt (z ^ 2 + b ^ 2))
    by (f_equal; ring).
  replace ((z * 1000) ^ 2 + (b * 1000) ^ 2)
    with (1000 ^ 2 * (z ^ 2 + b ^ 2)) by ring.
  rewrite sqrt_scale by lra.
  set (h := sqrt (z ^ 2 + b ^ 2)) in *.
  replace ((r * 1000) ^ 2 + (a * 1000 + 1000 * h) ^ 2)
    with (1000 ^ 2 * (r ^ 2 + (a + h) ^ 2)) by ring.
  rewrite pow15_scale by lra.
  replace (r ^ 2 + 0 ^ 2 + (a + h) ^ 2) with (r ^ 2 + (a + h) ^ 2) by ring.
  assert (Hu : 0 < r ^ 2 + (a + h) ^ 2).
  { pose proof (pow2_ge_0 r).
    assert (0 < (a + h) ^ 2) by (apply pow_lt; lra). lra. }
  assert (HP : pow15 (r ^ 2 + (a + h) ^ 2) <> 0).
  { unfold pow15. apply Rgt_not_eq, Rmult_lt_0_compat;
      [exact Hu | apply sqrt_lt_R0, Hu]. }
  set (P := pow15 (r ^ 2 + (a + h) ^ 2)) in *.
  apply vec3_eq; field; repeat split; lra.
Qed.

(** X9 at [r = 3], [z = 4] for the disc [a = 1], [b = 0.5],
    [M = -10]. *)
Lemma mmn_force_is_mnn_force_rescaled_witness :
  MNn.mn_force 3 0 4 1 (1 / 2) (Rabs (-10)) "z" =
  (10 ^ 6 * MMN.mn_forceR 3 4 1 (1 / 2) (-10), 0,
   10 ^ 6 * MMN.mn_forceV 3 4 1 (1 / 2) (-10)).
Proof.
  apply mmn_force_is_mnn_force_rescaled.
  - lra.
  - pose proof (Rabs_pos (1 / 2)). lra.
Defined.

(** ** Adding several discs *)

Lemma mnn_model_eta (self : MNn.model) :
  MNn.Model (MNn.discs self) (MNn.axes self) (MNn.diz self) = self.
Proof. destruct self. reflexivity. Qed.

Lemma mnn_add_discs_accepted (values : list (string * R * R * R)) :
  Forall (fun v : string * R * R * R => 0 <= v.1.2) values ->
  forall self : MNn.model,
    MNn.add_discs values self =
    Run (Ok tt)
        (MNn.Model (MNn.discs self ++ Calls.params_of values)
                   (MNn.axes self ++ Calls.axes_of values) (MNn.diz self))
        (Sums.warnings_of values).
Proof.
  induction 1 as [| [[[axis a] b] M] values Hb _ IH]; intros self.
  - cbn. rewrite !app_nil_r, mnn_model_eta. reflexivity.
  - cbn in Hb. cbn [MNn.add_discs].
    rewrite mnn_add_disc_accepts by exact Hb. cbn [ret after printed].
    rewrite IH. cbn [ret after printed MNn.discs MNn.axes MNn.diz].
    rewrite params_of_cons, <- !app_assoc. reflexivity.
Qed.

Lemma mnn_add_discs_app (good rest : list (string * R * R * R)) :
  Forall (fun v : string * R * R * R => 0 <= v.1.2) good ->
  forall self : MNn.model,
    MNn.add_discs (good ++ rest) self =
    let r := MNn.add_discs rest (after (MNn.add_discs good self)) in
    Run (ret r) (after r) (Sums.warnings_of good ++ printed r).
Proof.
  induction 1 as [| [[[axis a] b] M] good Hb _ IH]; intros self.
  - cbn. destruct (MNn.add_discs rest self). reflexivity.
  - cbn in Hb. cbn [app MNn.add_discs].
    rewrite mnn_add_disc_accepts by exact Hb. cbn [ret after printed].
    rewrite IH. cbv zeta. cbn [ret after printed].
    rewrite app_assoc. reflexivity.
Qed.

(** X10: [MNnModel.add_discs] is not all-or-nothing.  When every disc
    has [b >= 0] it appends them all, in order, and prints one warning
    per disc with [a + b < 0]; when the discs [good] are followed by one
    with [b < 0], it raises [MNnError] and the model keeps the discs
    [good] that came before, and none of those that come after. *)
Theorem mnn_add_discs_stops_at_first_bad
    (good rest : list (string * R * R * R)) (axis : string) (a b M : R)
    (self : MNn.model) :
  Forall (fun v : string * R * R * R => 0 <= v.1.2) good ->
  (MNn.add_discs good self =
   Run (Ok tt)
       (MNn.Model (MNn.discs self ++ Calls.params_of good)
                  (MNn.axes self ++ Calls.axes_of good) (MNn.diz self))
       (Sums.warnings_of good)) /\
  (b < 0 ->
   MNn.add_discs (good ++ (axis, a, b, M) :: rest) self =
   Run (Raise MNnError)
       (MNn.Model (MNn.discs self ++ Calls.params_of good)
                  (MNn.axes self ++ Calls.axes_of good) (MNn.diz self))
       (Sums.warnings_of good)).
Proof.
  intros Hgood. split; [apply mnn_add_discs_accepted, Hgood |].
  intros Hb. rewrite mnn_add_discs_app by exact Hgood.
  rewrite (mnn_add_discs_accepted good Hgood). cbv zeta.
  cbn [after MNn.add_discs]. rewrite mnn_add_disc_rejects by exact Hb.
  cbn [ret after printed]. rewrite app_nil_r. reflexivity.
Qed.

(** X10 on [("z", 1, 0.1, 50)] followed by the disc [("x", 1, -1, 10)]
    and by [("y", 1, 1, 1)]. *)
Lemma mnn_add_discs_stops_at_first_bad_witness :
  MNn.add_discs [("z", 1, 1 / 10, 50); ("x", 1, -1, 10); ("y", 1, 1, 1)]
                (MNn.init 1) =
  Run (Raise MNnError)
      (MNn.Model ([] ++ Calls.params_of [("z", 1, 1 / 10, 50)])
                 ([] ++ Calls.axes_of [("z", 1, 1 / 10, 50)]) 1)
      (Sums.warnings_of [("z", 1, 1 / 10, 50)]).
Proof.
  apply (mnn_add_discs_stops_at_first_bad
           [("z", 1, 1 / 10, 50)] [("y", 1, 1, 1)] "x" 1 (-1) 10 (MNn.init 1)).
  - repeat constructor; cbn; lra.
  - lra.
Defined.

Lemma load_from_array_rows (values : list (string * R * R * R)) :
  forall self : MNn.model,
    MNn.load_from_array (Sums.rows_of values) (Calls.axes_of values) self =
    MNn.add_discs values self.
Proof.
  induction values as [| [[[axis a] b] M] values IH]; intros self.
  - reflexivity.
  - cbn [Sums.rows_of Calls.axes_of fmap list_fmap MNn.load_from_array
         MNn.add_discs unpack3].
    destruct (ret (MNn.add_disc axis a b M self)); [| reflexivity].
    fold (Sums.rows_of values). fold (Calls.axes_of values).
    rewrite IH. reflexivity.
Qed.

(** X11: [MNnModel.load_from_array] on the rows [[a, b, M]] and the axes
    of a sequence of discs does what [add_discs] does on the discs:
    same result, same model, same warnings. *)
Theorem mnn_load_from_array_is_add_discs
    (values : list (string * R * R * R)) (self : MNn.model) :
  MNn.load_from_array (Sums.rows_of values) (Calls.axes_of values) self =
  MNn.add_discs values self.
Proof.
  revert self.
  induction values as [| [[[axis a] b] M] values IH]; intros self.
  - reflexivity.
  - cbn [Sums.rows_of Calls.axes_of fmap list_fmap MNn.load_from_array
         MNn.add_discs unpack3].
    destruct (ret (MNn.add_disc axis a b M self)); [| reflexivity].
    fold (Sums.rows_of values). fold (Calls.axes_of values).
    rewrite IH. reflexivity.
Qed.

Lemma tuples_of_split (values : list (string * R * R * R)) :
  snd <$> Calls.tuples_of values = Sums.rows_of values /\
  fst <$> Calls.tuples_of values = Calls.axes_of values.
Proof.
  unfold Calls.tuples_of, Sums.rows_of, Calls.axes_of.
  rewrite <- !list_fmap_compose.
  split; apply list_fmap_ext; intros _ [[[axis a] b] M] _; reflexivity.
Qed.

(** X12: a model made of discs with [b >= 0] is copied by feeding the
    rows and the axes of its [get_model] to [load_from_array] on a new
    model: the copy has the same flat parameters and the same axes. *)
Theorem mnn_get_model_load_round_trip
    (values : list (string * R * R * R)) (dz : R) :
  Forall (fun v : string * R * R * R => 0 <= v.1.2) values ->
  let self := MNn.Model (Calls.params_of values) (Calls.axes_of values) dz in
  let copy :=
    MNn.load_from_array (snd <$> MNn.get_model self)
                        (fst <$> MNn.get_model self) (MNn.init dz) in
  ret copy = Ok tt /\ after copy = self.
Proof.
  intros Hall self copy. unfold copy, self.
  rewrite mnn_get_model_of_values.
  destruct (tuples_of_split values) as [-> ->].
  rewrite load_from_array_rows, mnn_add_discs_accepted by exact Hall.
  split; reflexivity.
Qed.

(** X12 on the two discs [("z", 1, 0.1, 50)] and [("x", 1, 0.5, 10)]. *)
Lemma mnn_get_model_load_round_trip_witness :
  after
    (MNn.load_from_array
       (snd <$> MNn.get_model
                  (MNn.Model [1; 1 / 10; 50; 1; 1 / 2; 10] ["z"; "x"] 1))
       (fst <$> MNn.get_model
                  (MNn.Model [1; 1 / 10; 50; 1; 1 / 2; 10] ["z"; "x"] 1))
       (MNn.init 1)) =
  MNn.Model [1; 1 / 10; 50; 1; 1 / 2; 10] ["z"; "x"] 1.
Proof.
  apply (mnn_get_model_load_round_trip
           [("z", 1, 1 / 10, 50); ("x", 1, 1 / 2, 10)] 1).
  repeat constructor; cbn; lra.
Defined.

(** ** The check for positive definiteness of [MNnModel] *)

Lemma tiny_pos : 0 < / 10 ^ 18.
Proof. apply Rinv_0_lt_compat, pow_lt. lra. Qed.

(** The largest scale among the discs off the axis: it is found without
    an error, it is at least the starting value and at least the scale
    of every disc off the axis, and it stays below any bound that the
    starting value and all the scales are below. *)
Lemma largest_scale_spec (axis : string)
    (values : list (string * R * R * R)) :
  forall mr : R,
    exists m,
      MNn.largest_scale axis (Calls.tuples_of values) mr = Ok m /\
      mr <= m /\
      Forall (fun v : string * R * R * R =>
                String.eqb v.1.1.1 axis = false -> v.1.1.2 <= m) values /\
      (forall bound,
         mr < bound ->
         Forall (fun v : string * R * R * R => v.1.1.2 < bound) values ->
         m < bound).
Proof.
  induction values as [| [[[ax a] b] M] values IH]; intros mr.
  - exists mr. cbn. repeat split; auto; lra.
  - change (Calls.tuples_of ((ax, a, b, M) :: values))
      with ((ax, [a; b; M]) :: Calls.tuples_of values).
    cbn [MNn.largest_scale fst snd].
    destruct (String.eqb ax axis) eqn:Hax; cbn [negb].
    + destruct (IH mr) as (m & Hm & Hle & Hall & Hbound).
      exists m. split; [exact Hm |]. split; [exact Hle |]. split.
      * constructor; [| exact Hall]. cbn. congruence.
      * intros bound Hmr Hb. inversion Hb; subst. auto.
    + cbn [head_item mbind result_bind]. unfold Rgtb, Rltb.
      destruct (Rlt_dec mr a) as [Hlt | Hge].
      * destruct (IH a) as (m & Hm & Hle & Hall & Hbound).
        exists m. split; [exact Hm |]. split; [lra |]. split.
        -- constructor; [| exact Hall]. cbn. intros _. exact Hle.
        -- intros bound Hmr Hb. inversion Hb as [| ? ? Ha Hrest]; subst.
           cbn in Ha. auto.
      * destruct (IH mr) as (m & Hm & Hle & Hall & Hbound).
        exists m. split; [exact Hm |]. split; [exact Hle |]. split.
        -- constructor; [| exact Hall]. cbn. intros _. lra.
        -- intros bound Hmr Hb. inversion Hb; subst. auto.
Qed.

Lemma axis_loop_all_skipped
    (fminbound : (R -> result R) -> R -> option R -> result (R * R * Z * nat))
    (self : MNn.model) (values : list (string * R * R * R))
    (todo : list string) :
  Forall (fun v : string * R * R * R => v.1.1.2 < / 10 ^ 18) values ->
  MNn.axis_loop fminbound self None (Calls.tuples_of values) todo = Ok true.
Proof.
  intros Hall. induction todo as [| axis todo IH]; [reflexivity |].
  cbn [MNn.axis_loop].
  destruct (largest_scale_spec axis values 0) as (m & -> & Hle & _ & Hbound).
  cbn [mbind result_bind].
  rewrite Rltb_true; [exact IH |].
  rewrite Rabs_pos_eq by exact Hle. apply Hbound; [apply tiny_pos | exact Hall].
Qed.

(** X13: without [max_range], a model all of whose scales [a] are below
    [1e-18] (negative or zero scales, or no disc at all) is declared
    positive definite whatever the minimiser is: the minimiser is never
    asked, on any axis. *)
Theorem mnn_positive_definite_unchecked
    (fminbound : (R -> result R) -> R -> option R -> result (R * R * Z * nat))
    (values : list (string * R * R * R)) (dz : R) :
  Forall (fun v : string * R * R * R => v.1.1.2 < / 10 ^ 18) values ->
  MNn.is_positive_definite fminbound
    (MNn.Model (Calls.params_of values) (Calls.axes_of values) dz) None =
  Ok true.
Proof.
  intros Hall. unfold MNn.is_positive_definite.
  rewrite mnn_get_model_of_values. apply axis_loop_all_skipped, Hall.
Qed.

(** X13 on the disc [("z", -1, 2, 50)], with a minimiser that would
    report a negative density. *)
Lemma mnn_positive_definite_unchecked_witness :
  MNn.is_positive_definite (fun _ _ _ => Ok (0, -1, 0%Z, 0%nat))
    (MNn.Model (Calls.params_of [("z", -1, 2, 50)])
               (Calls.axes_of [("z", -1, 2, 50)]) 1) None =
  Ok true.
Proof.
  apply mnn_positive_definite_unchecked.
  repeat constructor. cbn. pose proof tiny_pos. lra.
Defined.

Lemma axis_loop_none_raises
    (fminbound : (R -> result R) -> R -> option R -> result (R * R * Z * nat))
    (e : exn) (self : MNn.model) (values : list (string * R * R * R))
    (ax : string) (a b M : R) (target : string) (todo : list string) :
  (forall f lo, fminbound f lo None = Raise e) ->
  (ax, a, b, M) ∈ values ->
  / 10 ^ 18 <= a ->
  String.eqb ax target = false ->
  target ∈ todo ->
  MNn.axis_loop fminbound self None (Calls.tuples_of values) todo = Raise e.
Proof.
  intros Hnone Hin Ha Hax Htarget.
  induction todo as [| axis todo IH]; [inversion Htarget |].
  cbn [MNn.axis_loop].
  destruct (largest_scale_spec axis values 0) as (m & -> & Hle & Hall & _).
  cbn [mbind result_bind].
  destruct (Rltb (Rabs m) (/ 10 ^ 18)) eqn:Hskip.
  - apply elem_of_cons in Htarget as [<- | Hrest]; [| apply IH, Hrest].
    exfalso. rewrite Forall_forall in Hall.
    specialize (Hall _ Hin Hax). cbn in Hall.
    unfold Rltb in Hskip. destruct (Rlt_dec _ _) as [Hlt |]; [| discriminate].
    rewrite Rabs_pos_eq in Hlt by exact Hle. lra.
  - rewrite Hnone. reflexivity.
Qed.

(** X14: without [max_range], as soon as one disc of the model has a
    scale [a >= 1e-18] the minimiser is called with the upper bound
    [None]: with a minimiser that refuses such a bound, as scipy's does,
    [is_positive_definite] ends with the minimiser's error, whatever the
    other discs are. *)
Theorem mnn_positive_definite_needs_max_range
    (fminbound : (R -> result R) -> R -> option R -> result (R * R * Z * nat))
    (e : exn) (values : list (string * R * R * R)) (dz : R)
    (ax : string) (a b M : R) :
  (forall f lo, fminbound f lo None = Raise e) ->
  (ax, a, b, M) ∈ values ->
  / 10 ^ 18 <= a ->
  MNn.is_positive_definite fminbound
    (MNn.Model (Calls.params_of values) (Calls.axes_of values) dz) None =
  Raise e.
Proof.
  intros Hnone Hin Ha. unfold MNn.is_positive_definite.
  rewrite mnn_get_model_of_values.
  destruct (String.eqb ax "x") eqn:Hx.
  - apply String.eqb_eq in Hx. subst ax.
    apply (axis_loop_none_raises fminbound e _ values "x" a b M "y");
      try assumption; [reflexivity | set_solver].
  - apply (axis_loop_none_raises fminbound e _ values ax a b M "x");
      try assumption. set_solver.
Qed.

(** X14 on the discs [("x", -1, 2, 50)] and [("x", 1, 0.5, 10)]: the
    axis ["x"] is skipped, the axis ["y"] is not. *)
Lemma mnn_positive_definite_needs_max_range_witness :
  MNn.is_positive_definite
    (fun _ _ hi => match hi with
                   | Some _ => Ok (0, 0, 0%Z, 0%nat)
                   | None => Raise ValueError
                   end)
    (MNn.Model (Calls.params_of [("x", -1, 2, 50); ("x", 1, 1 / 2, 10)])
               (Calls.axes_of [("x", -1, 2, 50); ("x", 1, 1 / 2, 10)]) 1)
    None =
  Raise ValueError.
Proof.
  apply (mnn_positive_definite_needs_max_range _ ValueError _ 1
           "x" 1 (1 / 2) 10).
  - reflexivity.
  - set_solver.
  - pose proof tiny_pos.
    assert (/ 10 ^ 18 <= / 1)
      by (apply Rinv_le_contravar; [lra | apply pow_R1_Rle; lra]).
    lra.
Defined.

(** X15: with a [max_range], the three axes are examined in the order
    x, y, z over [[0, max_range]]; when the minimiser answers on each
    axis, the model is declared positive definite exactly when none of
    the three minima is negative. *)
Theorem mnn_positive_definite_with_range
    (fminbound : (R -> result R) -> R -> option R -> result (R * R * Z * nat))
    (self : MNn.model) (max_range : R)
    (ox oy oz : R * R * Z * nat) :
  fminbound (fun r => MNn._evaluate_density_axis self r "x") 0
            (Some max_range) = Ok ox ->
  fminbound (fun r => MNn._evaluate_density_axis self r "y") 0
            (Some max_range) = Ok oy ->
  fminbound (fun r => MNn._evaluate_density_axis self r "z") 0
            (Some max_range) = Ok oz ->
  MNn.is_positive_definite fminbound self (Some max_range) =
  Ok (negb (Rltb ox.1.1.2 0) && negb (Rltb oy.1.1.2 0) &&
      negb (Rltb oz.1.1.2 0)).
Proof.
  intros Hx Hy Hz. unfold MNn.is_positive_definite.
  cbn [MNn.axis_loop]. rewrite Hx, Hy, Hz.
  destruct ox as [[[xo fx] ix] nx], oy as [[[yo fy] iy] ny],
           oz as [[[zo fz] iz] nz].
  cbn [mbind result_bind fst snd].
  destruct (Rltb fx 0), (Rltb fy 0), (Rltb fz 0); reflexivity.
Qed.

(** X15 with a minimiser that finds the minimum 0 at 0 on every axis. *)
Lemma mnn_positive_definite_with_range_witness :
  MNn.is_positive_definite (fun _ _ _ => Ok (0, 0, 0%Z, 1%nat))
    (MNn.Model [1; 1 / 10; 50] ["z"] 1) (Some 10) =
  Ok (negb (Rltb 0 0) && negb (Rltb 0 0) && negb (Rltb 0 0)).
Proof.
  apply (mnn_positive_definite_with_range
           (fun _ _ _ => Ok (0, 0, 0%Z, 1%nat))
           (MNn.Model [1; 1 / 10; 50] ["z"] 1) 10
           (0, 0, 0%Z, 1%nat) (0, 0, 0%Z, 1%nat) (0, 0, 0%Z, 1%nat));
    reflexivity.
Defined.

(** ** The likelihood of the fitter *)

Lemma mmn_is_positive_definite_raises
    (fminbound : (R -> result R) -> R -> R -> result R) (m : MMN.model) :
  exists e, MMN.is_positive_definite fminbound m = Raise e.
Proof.
  unfold MMN.is_positive_definite.
  destruct (fminbound _ 0 1000) as [rm | e]; cbn; eauto.
Qed.

(** X16: with the check for positive definiteness switched on,
    [loglikelihood] never returns a likelihood: for every parameter
    vector, of any length, it returns [-inf] or raises. *)
Theorem loglikelihood_with_check_never_finite
    (fminbound : (R -> result R) -> R -> R -> result R)
    (self : Fitter.fitter) (models : list R) :
  Fitter.check_DP self = true ->
  Fitter.loglikelihood fminbound self models = Ok Fitter.NegInf \/
  exists e, Fitter.loglikelihood fminbound self models = Raise e.
Proof.
  intros Hdp. unfold Fitter.loglikelihood.
  destruct (Fitter.axes self) as [| axis rest].
  - cbn [Fitter.check_loop mbind result_bind]. rewrite Hdp.
    cbn [Fitter.call_is_positive_definite]. right.
    destruct (mmn_is_positive_definite_raises fminbound (MMN.init 1))
      as [e ->].
    exists e. reflexivity.
  - cbn [Fitter.check_loop].
    destruct (unpack3 _) as [[[a b] M] | e]; [| right; exists e; reflexivity].
    cbn [mbind result_bind].
    destruct (Rltb (a + b) 0); [left; reflexivity |].
    rewrite Hdp. right. exists AttributeError. reflexivity.
Qed.

(** X16 on the default configuration with one disc. *)
Lemma loglikelihood_with_check_never_finite_witness :
  Fitter.loglikelihood (fun _ _ _ => Ok 0)
    (Fitter.Fit 100 1000 [] [1; 1; 1] ["z"] 3 "potential"
                [(0, 0, 0, 0)] [1] true)
    [1; -2; 1] = Ok Fitter.NegInf \/
  exists e,
    Fitter.loglikelihood (fun _ _ _ => Ok 0)
      (Fitter.Fit 100 1000 [] [1; 1; 1] ["z"] 3 "potential"
                  [(0, 0, 0, 0)] [1] true)
      [1; -2; 1] = Raise e.
Proof. apply loglikelihood_with_check_never_finite. reflexivity. Defined.

Lemma check_loop_rejects
    (fminbound : (R -> result R) -> R -> R -> result R)
    (self : Fitter.fitter) (values : list (string * R * R * R)) :
  Fitter.check_DP self = false ->
  Exists (fun v : string * R * R * R => v.1.1.2 + v.1.2 < 0) values ->
  forall (pre : list R) (k : nat) (M_var : Fitter.local_M),
    length pre = (k * 3)%nat ->
    Fitter.check_loop self (pre ++ Calls.params_of values)
                      (Calls.axes_of values) k M_var =
    Ok (inl Fitter.NegInf).
Proof.
  intros Hdp Hbad.
  induction values as [| [[[axis a] b] M] values IH]; intros pre k Mv Hk.
  - inversion Hbad.
  - change (Calls.axes_of ((axis, a, b, M) :: values))
      with (axis :: Calls.axes_of values).
    rewrite params_of_cons. cbn [Fitter.check_loop app].
    rewrite slice_app_triple by exact Hk. cbn [unpack3 mbind result_bind].
    unfold Rltb at 1. destruct (Rlt_dec (a + b) 0) as [Hlt | Hge];
      [reflexivity |].
    rewrite Hdp.
    replace (pre ++ a :: b :: M :: Calls.params_of values)
      with ((pre ++ [a; b; M]) ++ Calls.params_of values)
      by (rewrite <- app_assoc; reflexivity).
    apply IH.
    + apply Exists_cons in Hbad as [Hhead | Htail]; [| exact Htail].
      cbn in Hhead. contradiction.
    + rewrite length_app, Hk. cbn. lia.
Qed.

(** X17: with the check for positive definiteness off, a parameter
    vector that holds one triple per axis of the fitter and in which
    some disc has [a + b < 0] gets the log-likelihood [-inf], whatever
    the data, the noise and the fit type are. *)
Theorem loglikelihood_rejects_negative_sum
    (fminbound : (R -> result R) -> R -> R -> result R)
    (self : Fitter.fitter) (values : list (string * R * R * R)) :
  Fitter.check_DP self = false ->
  Fitter.axes self = Calls.axes_of values ->
  Exists (fun v : string * R * R * R => v.1.1.2 + v.1.2 < 0) values ->
  Fitter.loglikelihood fminbound self (Calls.params_of values) =
  Ok Fitter.NegInf.
Proof.
  intros Hdp Hax Hbad. unfold Fitter.loglikelihood. rewrite Hax.
  pose proof (check_loop_rejects fminbound self values Hdp Hbad [] 0
                (Fitter.MObject (MMN.init 1)) eq_refl) as Hloop.
  cbn [app] in Hloop. rewrite Hloop. reflexivity.
Qed.

(** X17 on two discs, the second with [a + b = -1], and the fit type
    ["force"]. *)
Lemma loglikelihood_rejects_negative_sum_witness :
  Fitter.loglikelihood (fun _ _ _ => Ok 0)
    (Fitter.Fit 100 1000 [] [1; 1; 1; 1; 1; 1] ["z"; "x"] 6 "force"
                [(0, 0, 0, 0)] [1] false)
    (Calls.params_of [("z", 1, 1, 1); ("x", -2, 1, 1)]) =
  Ok Fitter.NegInf.
Proof.
  apply loglikelihood_rejects_negative_sum.
  - reflexivity.
  - reflexivity.
  - apply Exists_cons_tl, Exists_cons_hd. cbn. lra.
Defined.

(** X18: with the check off and the fit type ["density"] or
    ["potential"], a parameter vector with one triple per axis, all with
    [a + b >= 0], and a noise that is nowhere zero, gets the Gaussian
    log-likelihood [-0.5 * sum ((p - predicted)^2 / sigma^2 +
    log (sigma^2))], where the prediction at a row is the sum over the
    discs of the chosen quantity at the disc's own radius and height. *)
Theorem loglikelihood_is_gaussian_without_check
    (fminbound : (R -> result R) -> R -> R -> result R)
    (self : Fitter.fitter) (models : list R) (f : Fitter.eval_func) :
  Fitter.check_DP self = false ->
  Fitter.pick_eval_func (Fitter.fit_type self) = Ok f ->
  length models = (3 * length (Fitter.axes self))%nat ->
  Fitter.axes self <> [] ->
  Fitter.sums_nonneg models ->
  length (Fitter.yerr self) = length (Fitter.data self) ->
  Forall (fun e => e <> 0) (Fitter.yerr self) ->
  Fitter.loglikelihood fminbound self models =
  Ok (Fitter.Finite
        (Fitter.gaussian_spec f (Fitter.axes self) models
                              (Fitter.data self) (Fitter.yerr self))).
Proof.
  intros Hdp Hf Hlen Hax Hok _ Hy. unfold Fitter.loglikelihood.
  destruct (check_loop_passes fminbound self (Fitter.axes self) Hdp [] models 0
              (Fitter.MObject (MMN.init 1)) eq_refl Hlen Hok) as [Mv HMv].
  cbn [app] in HMv. rewrite HMv. cbn [mbind result_bind]. rewrite Hdp.
  unfold Fitter.gaussian, Fitter.sMN.
  assert (Hnz : Nat.eqb (length models) 0 = false).
  { apply Nat.eqb_neq. destruct (Fitter.axes self); [contradiction |].
    cbn in Hlen. lia. }
  rewrite Hnz, Hf. cbn [mbind result_bind].
  pose proof (sMN_loop_sums f (Fitter.data self) (Fitter.axes self) [] models
                0 (fun _ => 0) eq_refl Hlen) as Hsum.
  cbn [app] in Hsum. rewrite Hsum.
  cbn [mbind result_bind]. rewrite gaussian_terms by exact Hy.
  unfold Fitter.gaussian_spec. do 4 f_equal.
  apply zip_with_ext; try reflexivity. intros [[[x y] z] p] sigma. cbn.
  rewrite Rplus_0_l. reflexivity.
Qed.

(** X18 on one disc and two rows of data. *)
Lemma loglikelihood_is_gaussian_without_check_witness :
  Fitter.loglikelihood (fun _ _ _ => Ok 0)
    (Fitter.Fit 100 1000 [] [1; 1; 1] ["z"] 3 "potential"
                [(0, 0, 0, -1); (1, 2, 3, 0)] [1; 1 / 100] false)
    [1; 1; 1] =
  Ok (Fitter.Finite
        (Fitter.gaussian_spec Fitter.EvalPotential ["z"] [1; 1; 1]
                              [(0, 0, 0, -1); (1, 2, 3, 0)] [1; 1 / 100])).
Proof.
  apply (loglikelihood_is_gaussian_without_check (fun _ _ _ => Ok 0)
           (Fitter.Fit 100 1000 [] [1; 1; 1] ["z"] 3 "potential"
                       [(0, 0, 0, -1); (1, 2, 3, 0)] [1; 1 / 100] false)
           [1; 1; 1] Fitter.EvalPotential); try reflexivity.
  - discriminate.
  - cbn. split; [lra | exact I].
  - repeat constructor; lra.
Defined.

(** X19: [sMN] called with a vector of one triple per axis and the fit
    type ["density"] or ["potential"] returns one value per row of the
    data: the sum, over all the discs, of the quantity at the row's
    point, each disc at its own radius and height.  Unlike
    [MMNModel._evaluate_quantity], it reads every disc. *)
Theorem sMN_is_the_sum_per_row (self : Fitter.fitter) (models : list R)
    (f : Fitter.eval_func) :
  Fitter.pick_eval_func (Fitter.fit_type self) = Ok f ->
  length models = (3 * length (Fitter.axes self))%nat ->
  Fitter.axes self <> [] ->
  Fitter.sMN self models None =
  Ok ((fun row : R * R * R * R =>
         Fitter.predicted f (Fitter.axes self) models
                          row.1.1.1 row.1.1.2 row.1.2) <$> Fitter.data self).
Proof.
  intros Hf Hlen Hax. unfold Fitter.sMN.
  assert (Hnz : Nat.eqb (length models) 0 = false).
  { apply Nat.eqb_neq. destruct (Fitter.axes self); [contradiction |].
    cbn in Hlen. lia. }
  rewrite Hnz, Hf. cbn [mbind result_bind].
  pose proof (sMN_loop_sums f (Fitter.data self) (Fitter.axes self) [] models
                0 (fun _ => 0) eq_refl Hlen) as Hsum.
  cbn [app] in Hsum. rewrite Hsum. f_equal.
  apply list_fmap_ext. intros _ row _. lra.
Qed.

(** X19 on two discs and one row. *)
Lemma sMN_is_the_sum_per_row_witness :
  Fitter.sMN
    (Fitter.Fit 100 1000 [] [1; 1; 1; 2; 2; 2] ["z"; "x"] 6 "density"
                [(1, 2, 3, 0)] [1] false)
    [1; 1; 1; 2; 2; 2] None =
  Ok [Fitter.predicted Fitter.EvalDensity ["z"; "x"] [1; 1; 1; 2; 2; 2] 1 2 3].
Proof.
  apply (sMN_is_the_sum_per_row
           (Fitter.Fit 100 1000 [] [1; 1; 1; 2; 2; 2] ["z"; "x"] 6 "density"
                       [(1, 2, 3, 0)] [1] false)
           [1; 1; 1; 2; 2; 2] Fitter.EvalDensity);
    [reflexivity | reflexivity | discriminate].
Defined.

(** ** The sample [fit_data] returns *)




(** ** The force is minus the gradient of the potential *)

(** The derivative of [K / sqrt (g u)] where [g] is positive. *)
Lemma deriv_inv_sqrt (K : R) (g : R -> R) (x lg : R) :
  0 < g x ->
  derivable_pt_lim g x lg ->
  derivable_pt_lim (fun u => K / sqrt (g u)) x
                   (- (K * lg) / (2 * pow15 (g x))).
Proof.
  intros Hpos Hg.
  assert (Hs : derivable_pt_lim (fun u => sqrt (g u)) x
                                (/ (2 * sqrt (g x)) * lg)).
  { exact (derivable_pt_lim_comp g sqrt x lg _ Hg
             (derivable_pt_lim_sqrt (g x) Hpos)). }
  pose proof (sqrt_lt_R0 (g x) Hpos) as HS.
  pose proof (derivable_pt_lim_div (fct_cte K) (fun u => sqrt (g u)) x 0 _
                (derivable_pt_lim_const K x) Hs
                (Rgt_not_eq _ _ HS)) as Hd.
  replace (- (K * lg) / (2 * pow15 (g x)))
    with ((0 * sqrt (g x) - / (2 * sqrt (g x)) * lg * fct_cte K x) /
          Rsqr (sqrt (g x))); [exact Hd |].
  unfold pow15, Rsqr, fct_cte.
  rewrite <- (sqrt_sqrt (g x)) at 5 by lra.
  field. lra.
Qed.

Lemma deriv_sq_plus (c x : R) :
  derivable_pt_lim (fun u => u ^ 2 + c) x (2 * x).
Proof.
  replace (2 * x) with (INR 2 * x ^ pred 2 + 0) by (simpl; ring).
  exact (derivable_pt_lim_plus (fun y => y ^ 2) (fct_cte c) x _ _
           (derivable_pt_lim_pow x 2) (derivable_pt_lim_const c x)).
Qed.

Lemma deriv_plus_sq (c x : R) :
  derivable_pt_lim (fun u => c + u ^ 2) x (2 * x).
Proof.
  apply (derivable_pt_lim_ext (fun u => u ^ 2 + c)); [intros; ring |].
  apply deriv_sq_plus.
Qed.

(** The height [sqrt (u^2 + b^2)] of a disc, as the normal coordinate
    varies. *)
Lemma deriv_height (b x : R) :
  b <> 0 ->
  derivable_pt_lim (fun u => sqrt (u ^ 2 + b ^ 2)) x
                   (x / sqrt (x ^ 2 + b ^ 2)).
Proof.
  intros Hb.
  assert (Hpos : 0 < x ^ 2 + b ^ 2).
  { pose proof (pow2_ge_0 x). pose proof (pow2_ge_0 b).
    pose proof (pow_nonzero b 2 Hb). lra. }
  replace (x / sqrt (x ^ 2 + b ^ 2))
    with (/ (2 * sqrt (x ^ 2 + b ^ 2)) * (2 * x))
    by (field; apply Rgt_not_eq, sqrt_lt_R0, Hpos).
  exact (derivable_pt_lim_comp (fun u => u ^ 2 + b ^ 2) sqrt x _ _
           (deriv_sq_plus (b ^ 2) x)
           (derivable_pt_lim_sqrt _ Hpos)).
Qed.

Lemma height_above (a b n : R) :
  b <> 0 -> 0 < a + Rabs b -> 0 < a + sqrt (n ^ 2 + b ^ 2).
Proof.
  intros Hb Hab.
  assert (Rabs b <= sqrt (n ^ 2 + b ^ 2)).
  { rewrite <- sqrt_sq_abs. apply sqrt_le_1_alt.
    pose proof (pow2_ge_0 n). lra. }
  lra.
Qed.

(** The potential of one disc in its tangent and normal coordinates. *)
Lemma potential_tangent_deriv (a b M t1 t2 n : R) :
  b <> 0 -> 0 < a + Rabs b ->
  derivable_pt_lim
    (fun u => MNn.mn_potential (sqrt (u ^ 2 + t2 ^ 2)) n a b M) t1
    (- (MNn.mn_force t1 t2 n a b M "z").1.1) /\
  derivable_pt_lim
    (fun u => MNn.mn_potential (sqrt (t1 ^ 2 + u ^ 2)) n a b M) t2
    (- (MNn.mn_force t1 t2 n a b M "z").1.2).
Proof.
  intros Hb Hab.
  pose proof (height_above a b n Hb Hab) as Hh.
  set (c := (a + sqrt (n ^ 2 + b ^ 2)) ^ 2).
  assert (Hc : 0 < c) by (apply pow_lt, Hh).
  pose proof (pow2_ge_0 t1) as H1. pose proof (pow2_ge_0 t2) as H2.
  assert (Hforce : forall t,
            - (- G * M / pow15 (t1 ^ 2 + t2 ^ 2 + c) * t) =
            - (- G * M * (2 * t)) / (2 * pow15 (t1 ^ 2 + t2 ^ 2 + c))).
  { intros t. field. unfold pow15.
    apply Rgt_not_eq, Rmult_lt_0_compat; [lra | apply sqrt_lt_R0; lra]. }
  unfold MNn.mn_force. cbn [String.eqb Ascii.eqb Bool.eqb]. cbv zeta.
  cbn [vscale fst snd].
  replace (sqrt (b ^ 2 + n ^ 2)) with (sqrt (n ^ 2 + b ^ 2))
    by (f_equal; ring).
  fold c. rewrite !Hforce. split.
  - apply (derivable_pt_lim_ext
             (fun u => - G * M / sqrt (u ^ 2 + (t2 ^ 2 + c)))).
    + intros u. rewrite mnn_potential_formula. fold c.
      rewrite pow2_sqrt by (pose proof (pow2_ge_0 u); lra).
      do 2 f_equal. ring.
    + replace (t1 ^ 2 + t2 ^ 2 + c) with (t1 ^ 2 + (t2 ^ 2 + c)) by ring.
      apply (deriv_inv_sqrt (- G * M) (fun u => u ^ 2 + (t2 ^ 2 + c)));
        [lra | apply deriv_sq_plus].
  - apply (derivable_pt_lim_ext
             (fun u => - G * M / sqrt (t1 ^ 2 + c + u ^ 2))).
    + intros u. rewrite mnn_potential_formula. fold c.
      rewrite pow2_sqrt by (pose proof (pow2_ge_0 u); lra).
      do 2 f_equal. ring.
    + replace (t1 ^ 2 + t2 ^ 2 + c) with (t1 ^ 2 + c + t2 ^ 2) by ring.
      apply (deriv_inv_sqrt (- G * M) (fun u => t1 ^ 2 + c + u ^ 2));
        [lra | apply deriv_plus_sq].
Qed.

Lemma potential_normal_deriv (a b M t1 t2 n : R) :
  b <> 0 -> 0 < a + Rabs b ->
  derivable_pt_lim
    (fun u => MNn.mn_potential (sqrt (t1 ^ 2 + t2 ^ 2)) u a b M) n
    (- (MNn.mn_force t1 t2 n a b M "z").2).
Proof.
  intros Hb Hab.
  pose proof (height_above a b n Hb Hab) as Hh.
  pose proof (sqrt_sum_sq_pos n b Hb) as Hf.
  pose proof (pow2_ge_0 t1) as H1. pose proof (pow2_ge_0 t2) as H2.
  unfold MNn.mn_force. cbn [String.eqb Ascii.eqb Bool.eqb]. cbv zeta.
  cbn [vscale fst snd].
  replace (sqrt (b ^ 2 + n ^ 2)) with (sqrt (n ^ 2 + b ^ 2))
    by (f_equal; ring).
  set (f := sqrt (n ^ 2 + b ^ 2)) in *.
  assert (Hg0 : 0 < t1 ^ 2 + t2 ^ 2 + (a + f) ^ 2).
  { assert (0 < (a + f) ^ 2) by (apply pow_lt, Hh). lra. }
  apply (derivable_pt_lim_ext
           (fun u => - G * M /
                     sqrt (t1 ^ 2 + t2 ^ 2 + (a + sqrt (u ^ 2 + b ^ 2)) ^ 2))).
  - intros u. rewrite mnn_potential_formula.
    rewrite pow2_sqrt by lra. reflexivity.
  - assert (Hinner : derivable_pt_lim
                       (fun u => t1 ^ 2 + t2 ^ 2 +
                                 (a + sqrt (u ^ 2 + b ^ 2)) ^ 2) n
                       (2 * (a + f) * (n / f))).
    { replace (2 * (a + f) * (n / f))
        with (0 + INR 2 * (a + f) ^ pred 2 * (0 + n / f))
        by (simpl; ring).
      apply (derivable_pt_lim_plus (fct_cte (t1 ^ 2 + t2 ^ 2))
               (fun u => (a + sqrt (u ^ 2 + b ^ 2)) ^ 2));
        [apply derivable_pt_lim_const |].
      apply (derivable_pt_lim_comp (fun u => a + sqrt (u ^ 2 + b ^ 2))
               (fun y => y ^ 2)).
      - apply (derivable_pt_lim_plus (fct_cte a)
                 (fun u => sqrt (u ^ 2 + b ^ 2)));
          [apply derivable_pt_lim_const | apply deriv_height, Hb].
      - apply derivable_pt_lim_pow. }
    replace (- (- G * M / pow15 (t1 ^ 2 + t2 ^ 2 + (a + f) ^ 2) *
                (n * ((a + f) / f))))
      with (- (- G * M * (2 * (a + f) * (n / f))) /
            (2 * pow15 (t1 ^ 2 + t2 ^ 2 + (a + f) ^ 2))).
    + apply (deriv_inv_sqrt (- G * M)
               (fun u => t1 ^ 2 + t2 ^ 2 +
                         (a + sqrt (u ^ 2 + b ^ 2)) ^ 2));
        [exact Hg0 | exact Hinner].
    + field. split; [lra |]. unfold pow15.
      apply Rgt_not_eq, Rmult_lt_0_compat; [lra | apply sqrt_lt_R0; lra].
Qed.

(** One disc, on any axis, in Cartesian coordinates. *)
Lemma disc_force_gradient (x y z : R) (ax : string) (a b M : R) :
  b <> 0 -> 0 < a + Rabs b ->
  derivable_pt_lim (fun u => on_axis MNn.mn_potential u y z ax a b M) x
                   (- (MNn.disc_force x y z ax a b M).1.1) /\
  derivable_pt_lim (fun u => on_axis MNn.mn_potential x u z ax a b M) y
                   (- (MNn.disc_force x y z ax a b M).1.2) /\
  derivable_pt_lim (fun u => on_axis MNn.mn_potential x y u ax a b M) z
                   (- (MNn.disc_force x y z ax a b M).2).
Proof.
  intros Hb Hab.
  unfold on_axis, MNn.disc_force, MNn.get_tangent_coordinates, MNn.mn_force.
  destruct (String.eqb ax "x"); [| destruct (String.eqb ax "y")].
  - (* normal x, tangent y and z *)
    split; [| split].
    + exact (potential_normal_deriv a b M y z x Hb Hab).
    + exact (proj1 (potential_tangent_deriv a b M y z x Hb Hab)).
    + exact (proj2 (potential_tangent_deriv a b M y z x Hb Hab)).
  - (* normal y, tangent x and z *)
    split; [| split].
    + exact (proj1 (potential_tangent_deriv a b M x z y Hb Hab)).
    + exact (potential_normal_deriv a b M x z y Hb Hab).
    + exact (proj2 (potential_tangent_deriv a b M x z y Hb Hab)).
  - (* normal z, tangent x and y *)
    split; [| split].
    + exact (proj1 (potential_tangent_deriv a b M x y z Hb Hab)).
    + exact (proj2 (potential_tangent_deriv a b M x y z Hb Hab)).
    + exact (potential_normal_deriv a b M x y z Hb Hab).
Qed.

Lemma total_deriv (values : list (string * R * R * R))
    (phi : R -> string * R * R * R -> R) (l : string * R * R * R -> R)
    (x : R) :
  Forall (fun v => derivable_pt_lim (fun u => phi u v) x (l v)) values ->
  derivable_pt_lim (fun u => Sums.total (phi u <$> values)) x
                   (Sums.total (l <$> values)).
Proof.
  induction 1 as [| v values Hv _ IH].
  - exact (derivable_pt_lim_const 0 x).
  - exact (derivable_pt_lim_plus (fun u => phi u v)
             (fun u => Sums.total (phi u <$> values)) x _ _ Hv IH).
Qed.

Lemma vtotal_components (terms : list vec3) :
  (Sums.vtotal terms).1.1 = Sums.total ((fun f : vec3 => f.1.1) <$> terms) /\
  (Sums.vtotal terms).1.2 = Sums.total ((fun f : vec3 => f.1.2) <$> terms) /\
  (Sums.vtotal terms).2 = Sums.total ((fun f : vec3 => f.2) <$> terms).
Proof.
  unfold Sums.vtotal, Sums.total.
  induction terms as [| [[f1 f2] f3] terms (IH1 & IH2 & IH3)];
    [repeat split; reflexivity |].
  cbn [foldr fmap list_fmap] in *.
  destruct (foldr vadd (0, 0, 0) terms) as [[s1 s2] s3].
  cbn [vadd fst snd] in *. rewrite <- IH1, <- IH2, <- IH3.
  repeat split; reflexivity.
Qed.

Lemma total_opp (terms : list R) :
  - Sums.total terms = Sums.total (Ropp <$> terms).
Proof.
  unfold Sums.total. induction terms as [| t terms IH]; cbn; [lra |].
  rewrite <- IH. lra.
Qed.

(** X21: for a model with at least one disc, all of whose discs have
    [b <> 0] and [a + |b| > 0], the force that [MNnModel.evaluate_force]
    returns at a point is minus the gradient of the potential that
    [MNnModel.evaluate_potential] returns: each component of the force is
    the opposite of the derivative of the potential along that
    coordinate. *)
Theorem mnn_force_is_minus_gradient
    (values : list (string * R * R * R)) (dz x y z : R) :
  values <> [] ->
  Forall Sums.regular_disc values ->
  exists (potential : R -> R -> R -> R) (force : vec3),
    (forall u v w,
       MNn.evaluate_potential
         (MNn.Model (Calls.params_of values) (Calls.axes_of values) dz) u v w =
       Ok (potential u v w)) /\
    MNn.evaluate_force
      (MNn.Model (Calls.params_of values) (Calls.axes_of values) dz) x y z =
      Ok force /\
    derivable_pt_lim (fun u => potential u y z) x (- force.1.1) /\
    derivable_pt_lim (fun u => potential x u z) y (- force.1.2) /\
    derivable_pt_lim (fun u => potential x y u) z (- force.2).
Proof.
  intros Hne Hall.
  exists (fun u v w =>
            Sums.total (Sums.scalar_of MNn.mn_potential u v w <$> values)).
  exists (Sums.vtotal (Sums.force_of x y z <$> values)).
  split; [| split].
  - intros u v w. unfold MNn.evaluate_potential.
    rewrite mnn_scalar_quantity_sum.
    destruct values; [contradiction | reflexivity].
  - rewrite mnn_force_sum. destruct values; [contradiction | reflexivity].
  - destruct (vtotal_components (Sums.force_of x y z <$> values))
      as (-> & -> & ->).
    rewrite !total_opp, <- !list_fmap_compose.
    split; [| split]; apply total_deriv;
      (eapply Forall_impl; [exact Hall |]);
      intros [[[ax a] b] M] [Hb Hab]; cbn in Hb, Hab;
      cbn [compose Sums.scalar_of Sums.force_of];
      apply (disc_force_gradient x y z ax a b M Hb Hab).
Qed.

(** X21 on the two discs [("z", 1, 0.1, 50)] and [("x", -0.2, 0.5, 10)]
    at the point [(3, 4, 5)]. *)
Lemma mnn_force_is_minus_gradient_witness :
  exists (potential : R -> R -> R -> R) (force : vec3),
    MNn.evaluate_force
      (MNn.Model [1; 1 / 10; 50; - (1 / 5); 1 / 2; 10] ["z"; "x"] 1) 3 4 5 =
      Ok force /\
    derivable_pt_lim (fun u => potential u 4 5) 3 (- force.1.1).
Proof.
  destruct (mnn_force_is_minus_gradient
              [("z", 1, 1 / 10, 50); ("x", - (1 / 5), 1 / 2, 10)] 1 3 4 5)
    as (potential & force & _ & Hforce & Hx & _).
  - discriminate.
  - repeat constructor; cbn; try lra.
    + rewrite Rabs_pos_eq; lra.
    + rewrite Rabs_pos_eq; lra.
  - exists potential, force. split; [exact Hforce | exact Hx].
Defined.

(** ** Ordinary models pass the check *)



(** ** The circular velocity of [MMNModel] *)

Lemma pow15_pos (u : R) : 0 < u -> 0 < pow15 u.
Proof.
  intros Hu. unfold pow15.
  apply Rmult_lt_0_compat; [exact Hu | apply sqrt_lt_R0, Hu].
Qed.

(** X23: away from the singular point ([b <> 0] and [a + |b| > 0]), the
    square of [MMNModel.mn_circular_velocity] is the radius times the
    inward radial force [- mn_forceR], divided by [kpc = 1000]: the
    velocity is computed from the unscaled radius and the scaled
    distance. *)
Theorem mmn_circular_velocity_squared (r z a b M : R) :
  b <> 0 -> 0 < a + Rabs b ->
  1000 * MMN.mn_circular_velocity r z a b M ^ 2 =
  r * - MMN.mn_forceR r z a b M.
Proof.
  intros Hb Hab.
  unfold MMN.mn_circular_velocity, MMN.mn_forceR. cbv zeta.
  replace ((z * 1000) ^ 2 + (b * 1000) ^ 2)
    with (1000 ^ 2 * (z ^ 2 + b ^ 2)) by ring.
  rewrite sqrt_scale by lra.
  pose proof (height_above a b z Hb Hab) as Hh.
  set (h := sqrt (z ^ 2 + b ^ 2)) in *.
  replace ((r * 1000) ^ 2 + (a * 1000 + 1000 * h) ^ 2)
    with (1000 ^ 2 * (r ^ 2 + (a + h) ^ 2)) by ring.
  assert (Hu : 0 < r ^ 2 + (a + h) ^ 2).
  { pose proof (pow2_ge_0 r).
    assert (0 < (a + h) ^ 2) by (apply pow_lt, Hh). lra. }
  assert (HP : 0 < pow15 (1000 ^ 2 * (r ^ 2 + (a + h) ^ 2)))
    by (apply pow15_pos; lra).
  set (P := pow15 (1000 ^ 2 * (r ^ 2 + (a + h) ^ 2))) in *.
  set (Mabs := sqrt (M ^ 2)).
  assert (HM : 0 <= Mabs) by apply sqrt_pos.
  rewrite Rpow_mult_distr, pow2_sqrt.
  - field. lra.
  - apply Rmult_le_pos; [| left; apply Rinv_0_lt_compat, HP].
    apply Rmult_le_pos; [lra | exact HM].
Qed.

(** X23 at [r = 3], [z = 4] for the disc [a = 1], [b = 0.5],
    [M = 10]. *)
Lemma mmn_circular_velocity_squared_witness :
  1000 * MMN.mn_circular_velocity 3 4 1 (1 / 2) 10 ^ 2 =
  3 * - MMN.mn_forceR 3 4 1 (1 / 2) 10.
Proof.
  apply mmn_circular_velocity_squared.
  - lra.
  - rewrite Rabs_pos_eq; lra.
Defined.

(** ** Models do not share their lists *)

(** X24: two models created one after the other in the same store own
    different lists: a disc added to the first, accepted or refused,
    leaves the second model empty, and the first model holds the disc
    exactly when it was accepted. *)
Theorem mnn_models_are_independent (dz1 dz2 : R)
    (h0 : gmap Store.loc Store.pyobj) (axis : string) (a b M : R) :
  let first := (Store.new_object dz1 h0).1 in
  let h1 := (Store.new_object dz1 h0).2 in
  let second := (Store.new_object dz2 h1).1 in
  let h2 := (Store.new_object dz2 h1).2 in
  exists r h3,
    Store.add_disc first axis a b M h2 = Some (r, h3) /\
    Store.lists_of second h3 = Some ([], []) /\
    Store.lists_of first h3 =
      Some (if Rltb b 0 then ([], []) else ([a; b; M], [axis])).
Proof.
  intros first h1 second h2.
  destruct (new_object_lists dz1 h0) as [Hne1 Hl1].
  destruct (new_object_lists dz2 h1) as [Hne2 Hl2].
  fold first h1 in Hne1, Hl1. fold second h2 in Hne2, Hl2.
  assert (Hkeep : forall l, is_Some (h1 !! l) -> h2 !! l = h1 !! l /\
                            l <> Store.floats_at second /\
                            l <> Store.axes_at second).
  { intros l Hsome. unfold h2, second, Store.new_object.
    cbn [fst snd Store.floats_at Store.axes_at].
    set (d := fresh (dom h1)).
    set (ax := fresh (dom (<[d := Store.Floats []]> h1))).
    assert (Hd : l <> d).
    { intros ->. pose proof (fresh_lookup h1) as Hf. fold d in Hf.
      rewrite Hf in Hsome. destruct Hsome; discriminate. }
    assert (Hax : l <> ax).
    { intros ->. pose proof (fresh_lookup (<[d := Store.Floats []]> h1)) as Hf.
      fold ax in Hf. rewrite lookup_insert_ne in Hf by congruence.
      rewrite Hf in Hsome. destruct Hsome; discriminate. }
    rewrite !lookup_insert_ne by congruence. auto. }
  assert (Hf1 : is_Some (h1 !! Store.floats_at first)).
  { unfold Store.lists_of in Hl1.
    destruct (h1 !! Store.floats_at first); [eauto | discriminate]. }
  assert (Ha1 : is_Some (h1 !! Store.axes_at first)).
  { unfold Store.lists_of in Hl1.
    destruct (h1 !! Store.floats_at first) as [[] |]; try discriminate.
    destruct (h1 !! Store.axes_at first); [eauto | discriminate]. }
  destruct (Hkeep _ Hf1) as (Hf2 & Hff & Hfa).
  destruct (Hkeep _ Ha1) as (Ha2 & Haf & Haa).
  assert (Hl12 : Store.lists_of first h2 = Some ([], [])).
  { unfold Store.lists_of in *. rewrite Hf2, Ha2. exact Hl1. }
  unfold Store.add_disc. rewrite Hl12. cbn [mbind option_bind].
  eexists _, _. split; [reflexivity |]. split.
  - unfold Store.lists_of, Store.update_lists.
    rewrite !lookup_insert_ne by congruence. exact Hl2.
  - rewrite lists_of_update by exact Hne1.
    unfold MNn.add_disc. destruct (Rltb b 0); reflexivity.
Qed.
